(** * TRPG dice bot: the dice parser, the roll evaluator and the CoC resolver

    A shallow embedding of [utils/dice.py], [utils/coc.py], [models/types.py]
    and the rule fields of [utils/config.py], with the properties the
    specification states about them.

    Conventions of the embedding:
    - a Python [int] is a [Z]; [str] and [int_digits] convert it to and from
      text whatever its length, as an interpreter without a limit on these
      conversions does, and CPython's default limit of 4300 digits is a
      hypothesis of the properties that depend on it ([convertible],
      [printable], [within_limit]);
    - a Python [str] is a [string] whose characters are the code points
      below 256 (the messages of the exceptions are kept as their UTF-8
      bytes);
    - a Python [float] is the rational number it denotes, a [Q];
    - a function that may raise returns a [result];
    - a function that draws from [random] threads the state of a random
      source through the calls (monad [M]). *)

(** Beyond the roll and the classification, the file embeds the renderings
    of [utils/dice.py] and [utils/coc.py] and the in-memory operations of
    [ConfigManager] ([utils/config.py]).  The SQL of [models/database.py],
    the logger, the file-system scripts and the Discord commands are not
    embedded. *)

From Stdlib Require Import ZArith QArith Bool List String Ascii Lia Nnat.
From Stdlib Require Import DecimalString DecimalZ DecimalPos DecimalFacts.
Import ListNotations.

Local Open Scope string_scope.
Local Open Scope Z_scope.

(* ================================================================== *)
(** ** Python primitives *)

Module Py.

(** The exception classes the modelled code can raise. *)
Inductive exn : Type :=
| ValueError (msg : string)
| ZeroDivisionError (msg : string)
| OverflowError (msg : string).

(** The class of an exception, what an [except] clause dispatches on. *)
Inductive exn_class : Type := ValueErrorT | ZeroDivisionErrorT | OverflowErrorT.

Definition class_of (e : exn) : exn_class :=
  match e with
  | ValueError _ => ValueErrorT
  | ZeroDivisionError _ => ZeroDivisionErrorT
  | OverflowError _ => OverflowErrorT
  end.

Inductive result (A : Type) : Type :=
| Ok (a : A)
| Raise (e : exn).
Arguments Ok {A} a.
Arguments Raise {A} e.

Definition bindR {A B} (r : result A) (k : A -> result B) : result B :=
  match r with
  | Ok a => k a
  | Raise e => Raise e
  end.

(** *** Characters *)

Definition ord (c : ascii) : Z := Z.of_N (N_of_ascii c).

(** [\d] on code points below 256: the ten ASCII digits. *)
Definition is_digit (c : ascii) : bool := (48 <=? ord c) && (ord c <=? 57).

(** [\s] and [str.isspace] on code points below 256: TAB, LF, VT, FF, CR,
    the separators U+001C..U+001F, SPACE, NEL (U+0085) and NBSP (U+00A0). *)
Definition is_space (c : ascii) : bool :=
  let n := ord c in
  ((9 <=? n) && (n <=? 13)) || ((28 <=? n) && (n <=? 32))
  || (n =? 133) || (n =? 160).

Definition newline : ascii := ascii_of_nat 10.

(** [.] of a regular expression without DOTALL: anything but LF. *)
Definition is_dot (c : ascii) : bool := negb (Ascii.eqb c newline).

Definition is_empty (s : string) : bool :=
  match s with
  | EmptyString => true
  | String _ _ => false
  end.

(** The longest prefix whose characters satisfy [p], and what follows it:
    a greedy [p*]. *)
Fixpoint span (p : ascii -> bool) (s : string) : string * string :=
  match s with
  | EmptyString => (EmptyString, EmptyString)
  | String c s' =>
      if p c then let (a, b) := span p s' in (String c a, b)
      else (EmptyString, s)
  end.

(** Every character of [s] satisfies [p]. *)
Fixpoint all_chars (p : ascii -> bool) (s : string) : bool :=
  match s with
  | EmptyString => true
  | String c s' => p c && all_chars p s'
  end.

(** [s] does not begin with a character that satisfies [p]. *)
Definition not_headed (p : ascii -> bool) (s : string) : bool :=
  match s with
  | EmptyString => true
  | String c _ => negb (p c)
  end.

(** [$] without MULTILINE: the end of the string, or just before a line
    feed that ends the string. *)
Definition at_dollar (s : string) : bool :=
  match s with
  | EmptyString => true
  | String c EmptyString => Ascii.eqb c newline
  | _ => false
  end.

(** *** [str.strip()] *)

Fixpoint lstrip (s : string) : string :=
  match s with
  | EmptyString => EmptyString
  | String c s' => if is_space c then lstrip s' else s
  end.

Fixpoint rstrip (s : string) : string :=
  match s with
  | EmptyString => EmptyString
  | String c s' =>
      let r := rstrip s' in
      if is_space c && is_empty r then EmptyString else String c r
  end.

Definition strip (s : string) : string := rstrip (lstrip s).

(** *** [str(n)] and [int(s)] *)

(** [str(n)] for an [int], also what an f-string renders. *)
Definition str (n : Z) : string := NilZero.string_of_int (Z.to_int n).

(** The decimal digits of a positive number. *)
Definition digits_of (p : positive) : string :=
  NilEmpty.string_of_uint (Pos.to_uint p).

(** [int(s)] for [s] a non-empty run of digits (a group matched by [\d+]). *)
Definition int_digits (s : string) : Z :=
  match NilEmpty.uint_of_string s with
  | Some u => Z.of_uint u
  | None => 0
  end.

(** *** The limit on the conversions

    CPython refuses, with a [ValueError], to convert between an [int] and a
    decimal text of more than [sys.get_int_max_str_digits()] digits, 4300
    unless the interpreter is set otherwise: [int(s)] counts the digits of
    [s], [str(n)] and an f-string those of [n].  Within the limit [str] and
    [int_digits] are what CPython computes. *)
Definition int_max_str_digits : Z := 4300.

(** [str(n)] and an f-string of [n] do not raise. *)
Definition printable (n : Z) : bool := Z.abs n <? 10 ^ int_max_str_digits.

(** [int] of a run of digits taken from [s] does not raise, whichever the
    run: [s] has at most 4300 characters. *)
Definition convertible (s : string) : bool :=
  Z.of_nat (String.length s) <=? int_max_str_digits.

(** *** True division [a / b] of two [int]s

    CPython returns the binary64 number nearest to the quotient (ties to
    even), raises [ZeroDivisionError] on a zero divisor and [OverflowError]
    when the rounded quotient leaves the binary64 range. *)

(** The integer nearest to [a / b] for [b > 0], ties to even. *)
Definition round_half_even (a b : Z) : Z :=
  let f := a / b in
  let r := a mod b in
  if 2 * r <? b then f
  else if b <? 2 * r then f + 1
  else if Z.even f then f else f + 1.

(** The fraction [(a / b) / 2^e] as a pair numerator, denominator. *)
Definition scale2 (a b e : Z) : Z * Z :=
  if 0 <=? e then (a, b * 2 ^ e) else (a * 2 ^ (- e), b).

(** [floor (log2 (a / b))] for [a, b > 0]. *)
Definition floor_log2_frac (a b : Z) : Z :=
  let l := Z.log2 a - Z.log2 b in
  let (a', b') := scale2 a b l in
  if b' <=? a' then l else l - 1.

(** The exponent of the last place of the binary64 numbers around [a / b]:
    53 significant bits, and [-1074] in the subnormal range. *)
Definition ulp_exponent (a b : Z) : Z :=
  Z.max (floor_log2_frac a b - 52) (-1074).

(** [a / b] rounded to binary64, for [a, b > 0]. *)
Definition round_binary64 (a b : Z) : result Q :=
  let e := ulp_exponent a b in
  let (a', b') := scale2 a b e in
  let m := round_half_even a' b' in
  if 0 <=? e then
    if 2 ^ 1024 <=? m * 2 ^ e
    then Raise (OverflowError "integer division result too large for a float")
    else Ok (inject_Z (m * 2 ^ e))
  else Ok (m # Z.to_pos (2 ^ (- e))).

Definition truediv (a b : Z) : result Q :=
  if b =? 0 then Raise (ZeroDivisionError "division by zero")
  else if a =? 0 then Ok 0%Q
  else
    bindR (round_binary64 (Z.abs a) (Z.abs b))
          (fun q => Ok (if Bool.eqb (a <? 0) (b <? 0) then q else Qopp q)).

(** [n <= x] for an [int] [n] and a [float] [x]: Python compares the two
    exactly. *)
Definition int_le_float (n : Z) (x : Q) : bool := Qle_bool (inject_Z n) x.

End Py.

Import Py.

Notation "x <-? r ;; k" := (bindR r (fun x => k))
  (at level 61, r at next level, right associativity).

(* ================================================================== *)
(** ** Drawing from [random] *)

(** A computation that may draw from a random source of state [G] and may
    raise.  The state of the source survives an exception. *)
Definition M (G A : Type) : Type := G -> result A * G.

Definition ret {G A} (a : A) : M G A := fun g => (Ok a, g).

Definition raise {G A} (e : exn) : M G A := fun g => (Raise e, g).

Definition bind {G A B} (m : M G A) (k : A -> M G B) : M G B :=
  fun g =>
    match m g with
    | (Ok a, g') => k a g'
    | (Raise e, g') => (Raise e, g')
    end.

Definition lift {G A} (r : result A) : M G A := fun g => (r, g).

Notation "x <- m ;; k" := (bind m (fun x => k))
  (at level 61, m at next level, right associativity).

(** [[m() for _ in range(n)]]: the results in the order of the calls. *)
Fixpoint repeatM {G A} (n : nat) (m : M G A) : M G (list A) :=
  match n with
  | O => ret []
  | S k => x <- m ;; xs <- repeatM k m ;; ret (x :: xs)
  end.

(** The state of the source after [i] runs of [m]. *)
Fixpoint state_after {G A} (m : M G A) (i : nat) (g : G) : G :=
  match i with
  | O => g
  | S k => state_after m k (snd (m g))
  end.

(** [m] never raises. *)
Definition succeeds {G A} (m : M G A) : Prop :=
  forall g, exists a g', m g = (Ok a, g').

(** A random source: [randint lo hi] is [random.randint(lo, hi)], a value of
    [[lo, hi]], or [ValueError] on an empty range. *)
Class RandomSource (G : Type) : Type := {
  randint : Z -> Z -> M G Z;
  randint_range : forall lo hi g, lo <= hi ->
    exists v g', randint lo hi g = (Ok v, g') /\ lo <= v <= hi;
  randint_empty : forall lo hi g, hi < lo ->
    exists msg g', randint lo hi g = (Raise (ValueError msg), g')
}.

(** A scripted source: a tape of the values to return, each brought into
    the range asked for; an exhausted tape yields the lower bound. *)
Definition tape : Type := list Z.

Definition tape_randint (lo hi : Z) : M tape Z :=
  fun t =>
    if hi <? lo then (Raise (ValueError "empty range for randrange()"), t)
    else
      match t with
      | [] => (Ok lo, [])
      | x :: t' => (Ok (Z.max lo (Z.min hi x)), t')
      end.

(* ================================================================== *)
(** ** [utils/config.py] and [models/types.py] *)

(** The rule fields of [GuildConfig]; the channel and stream fields play no
    part in a roll. *)
Record GuildConfig : Type := {
  dnd_critical_success : Z;
  dnd_critical_fail : Z;
  dnd_max_dice_count : Z;
  dnd_max_dice_sides : Z;
  coc_critical_success : Z;
  coc_critical_fail : Z;
  coc_skill_divisor_hard : Z;
  coc_skill_divisor_extreme : Z
}.

(** [GuildConfig()]: the defaults of the dataclass. *)
Definition default_config : GuildConfig := {|
  dnd_critical_success := 20;
  dnd_critical_fail := 1;
  dnd_max_dice_count := 50;
  dnd_max_dice_sides := 1000;
  coc_critical_success := 1;
  coc_critical_fail := 100;
  coc_skill_divisor_hard := 2;
  coc_skill_divisor_extreme := 5
|}.

Record RollResult : Type := {
  dice_expr : string;
  rolls : list Z;
  result_modifier : Z;  (* the field [modifier] of the dataclass *)
  total : Z;
  is_critical_success : bool;
  is_critical_fail : bool;
  comparison_result : option bool
}.

Record DiceRoll : Type := {
  count : Z;
  sides : Z;
  modifier : Z;
  comparison : option (string * Z)
}.

(* ================================================================== *)
(** ** [utils/coc.py] *)

Definition is_critical_failure (roll skill_value : Z) (rules : GuildConfig)
  : bool :=
  if skill_value <? 50 then 96 <=? roll
  else roll =? rules.(coc_critical_fail).

(** Returns 1 = critical success, 2 = extreme success, 3 = hard success,
    4 = regular success, 5 = failure, 6 = critical failure. *)
Definition determine_success_level (roll skill_value : Z)
    (rules : GuildConfig) : result Z :=
  if roll =? rules.(coc_critical_success) then Ok 1
  else if is_critical_failure roll skill_value rules then Ok 6
  else
    hard_success_threshold <-?
      truediv skill_value rules.(coc_skill_divisor_hard) ;;
    extreme_success_threshold <-?
      truediv skill_value rules.(coc_skill_divisor_extreme) ;;
    if (roll =? 100) || int_le_float roll extreme_success_threshold then Ok 2
    else if int_le_float roll hard_success_threshold then Ok 3
    else if roll <=? skill_value then Ok 4
    else Ok 5.

Definition roll_coc {G} `{RandomSource G} (skill_value : Z)
    (rules : GuildConfig) : M G RollResult :=
  roll <- randint 1 100 ;;
  success_level <- lift (determine_success_level roll skill_value rules) ;;
  let is_critical_success := roll =? rules.(coc_critical_success) in
  let is_critical_fail := is_critical_failure roll skill_value rules in
  let comparison_result := success_level <=? 4 in
  ret {| dice_expr := "d100<=" ++ str skill_value;
         rolls := [roll];
         result_modifier := 0;
         total := roll;
         is_critical_success := is_critical_success;
         is_critical_fail := is_critical_fail;
         comparison_result := Some comparison_result |}.

Definition roll_coc_multi {G} `{RandomSource G} (skill_value times : Z)
    (rules : GuildConfig) : M G (list RollResult) :=
  let count := Z.max 1 times in
  repeatM (Z.to_nat count) (roll_coc skill_value rules).

(* ================================================================== *)
(** ** [utils/dice.py] *)

(** *** The pattern of [parse_dice_expr]

    [^ (\d* ) d (\d+) ([+-]\d+)? (?: \s* (>=|<=|>|<) \s* (\d+) )? $]
    (written here with blanks between its parts).

    Every repetition is greedy and is followed by a character outside its
    class, so the matcher takes each longest run and never has to give a
    character back; the alternatives of the operator are tried in the order
    of the pattern, each with what follows it up to [$]. *)

(** The groups of a match; [None] is a group that took no part. *)
Record dice_groups : Type := {
  group1 : string;
  group2 : string;
  group3 : option string;
  group4 : option string;
  group5 : option string
}.

(** [([+-]\d+)?]: the text of the group and what follows it. *)
Definition match_modifier (s : string) : option string * string :=
  match s with
  | String c s' =>
      if (Ascii.eqb c "+" || Ascii.eqb c "-")%bool then
        let (ds, r) := span is_digit s' in
        if is_empty ds then (None, s) else (Some (String c ds), r)
      else (None, s)
  | EmptyString => (None, s)
  end.

(** The digits of the group of the modifier, none when the group took no
    part. *)
Definition modifier_digits (g3 : option string) : string :=
  match g3 with
  | Some (String _ ds) => ds
  | _ => ""
  end.

Fixpoint drop_prefix (p s : string) : option string :=
  match p, s with
  | EmptyString, _ => Some s
  | String a p', String b s' =>
      if Ascii.eqb a b then drop_prefix p' s' else None
  | String _ _, EmptyString => None
  end.

(** One alternative [op] of the operator, then [\s*], [(\d+)] and [$]. *)
Definition match_operator (op s : string) : option (string * string) :=
  match drop_prefix op s with
  | Some r =>
      let (_, r1) := span is_space r in
      let (ds, r2) := span is_digit r1 in
      if negb (is_empty ds) && at_dollar r2 then Some (op, ds) else None
  | None => None
  end.

Definition or_else {A} (x y : option A) : option A :=
  match x with
  | Some _ => x
  | None => y
  end.

(** [\s*], the operator, [\s*], [(\d+)] and [$]: the operator and the
    digits. *)
Definition match_comparison (s : string) : option (string * string) :=
  let (_, r) := span is_space s in
  or_else (match_operator ">=" r)
    (or_else (match_operator "<=" r)
       (or_else (match_operator ">" r) (match_operator "<" r))).

Definition match_dice_pattern (s : string) : option dice_groups :=
  let (g1, r1) := span is_digit s in
  match r1 with
  | String c r2 =>
      if Ascii.eqb c "d" then
        let (g2, r3) := span is_digit r2 in
        if is_empty g2 then None
        else
          let (g3, r4) := match_modifier r3 in
          match match_comparison r4 with
          | Some (op, v) =>
              Some {| group1 := g1; group2 := g2; group3 := g3;
                      group4 := Some op; group5 := Some v |}
          | None =>
              if at_dollar r4 then
                Some {| group1 := g1; group2 := g2; group3 := g3;
                        group4 := None; group5 := None |}
              else None
          end
      else None
  | EmptyString => None
  end.

(** The four operators of the pattern. *)
Definition is_operator (op : string) : Prop :=
  op = ">=" \/ op = "<=" \/ op = ">" \/ op = "<".

(** [int(s)] for [s] matched by [[+-]\d+]. *)
Definition int_signed (s : string) : Z :=
  match s with
  | String c ds =>
      if Ascii.eqb c "-" then - int_digits ds
      else if Ascii.eqb c "+" then int_digits ds
      else int_digits s
  | EmptyString => 0
  end.

Definition parse_dice_expr (expr : string) (rules : GuildConfig)
  : result DiceRoll :=
  let expr := strip expr in
  match match_dice_pattern expr with
  | None => Raise (ValueError "無效的骰子表達式格式")
  | Some m =>
      let count_str := m.(group1) in
      let count := if is_empty count_str then 1 else int_digits count_str in
      if count =? 0 then Raise (ValueError "骰子數量必須至少為1")
      else if rules.(dnd_max_dice_count) <? count then
        Raise (ValueError ("骰子數量過多 (最多 "
                             ++ str rules.(dnd_max_dice_count) ++ ")"))
      else
        let sides := int_digits m.(group2) in
        if sides <? 2 then Raise (ValueError "骰子面數必須至少為2")
        else if rules.(dnd_max_dice_sides) <? sides then
          Raise (ValueError ("骰子面數過多 (最多 "
                               ++ str rules.(dnd_max_dice_sides) ++ ")"))
        else
          let modifier :=
            match m.(group3) with
            | Some modifier_match => int_signed modifier_match
            | None => 0
            end in
          let comparison :=
            match m.(group4), m.(group5) with
            | Some op_match, Some value_match =>
                if negb (is_empty op_match) && negb (is_empty value_match)
                then Some (op_match, int_digits value_match)
                else None
            | _, _ => None
            end in
          Ok {| count := count; sides := sides; modifier := modifier;
                comparison := comparison |}
  end.

Definition format_dice_expr (dice : DiceRoll) : string :=
  if dice.(modifier) =? 0 then
    str dice.(count) ++ "d" ++ str dice.(sides)
  else
    let sign := if 0 <=? dice.(modifier) then "+" else "" in
    str dice.(count) ++ "d" ++ str dice.(sides) ++ sign
      ++ str dice.(modifier).

(** [sum(rolls)]: the additions from 0, left to right. *)
Definition sum (l : list Z) : Z := fold_left Z.add l 0.

(** [x in rolls]. *)
Definition contains (x : Z) (l : list Z) : bool := existsb (Z.eqb x) l.

Definition roll_single_dice {G} `{RandomSource G} (sides : Z) : M G Z :=
  randint 1 sides.

Definition roll_dice {G} `{RandomSource G} (dice : DiceRoll)
  : M G RollResult :=
  rolls <- repeatM (Z.to_nat dice.(count)) (roll_single_dice dice.(sides)) ;;
  let total := sum rolls + dice.(modifier) in
  let is_critical_success := (dice.(sides) =? 20) && contains 20 rolls in
  let is_critical_fail := (dice.(sides) =? 20) && contains 1 rolls in
  let comparison_result :=
    match dice.(comparison) with
    | Some (op, value) =>
        if String.eqb op ">=" then Some (value <=? total)
        else if String.eqb op ">" then Some (value <? total)
        else if String.eqb op "<=" then Some (total <=? value)
        else if String.eqb op "<" then Some (total <? value)
        else None
    | None => None
    end in
  ret {| dice_expr := format_dice_expr dice;
         rolls := rolls;
         result_modifier := dice.(modifier);
         total := total;
         is_critical_success := is_critical_success;
         is_critical_fail := is_critical_fail;
         comparison_result := comparison_result |}.

(** *** The pattern of [roll_multiple_dice]

    [^ (?:\+)? (\d+) \s+ (.+) $] (written here with blanks between its
    parts).

    [\s+] is tried from its longest run down to one character, as the
    pattern gives characters back to [(.+)]. *)

(** [(.+)$]: the text of the group. *)
Definition match_body (s : string) : option string :=
  let (body, r) := span is_dot s in
  if negb (is_empty body) && at_dollar r then Some body else None.

(** [\s+(.+)$]: the text of the last group. *)
Fixpoint match_spaces_body (s : string) : option string :=
  match s with
  | String c s' =>
      if is_space c then or_else (match_spaces_body s') (match_body s')
      else None
  | EmptyString => None
  end.

(** The two groups of a match. *)
Definition match_multi_pattern (s : string) : option (string * string) :=
  let s1 :=
    match s with
    | String c s' => if Ascii.eqb c "+" then s' else s
    | EmptyString => s
    end in
  let (g1, r1) := span is_digit s1 in
  if is_empty g1 then None
  else
    match match_spaces_body r1 with
    | Some g2 => Some (g1, g2)
    | None => None
    end.

Definition roll_multiple_dice {G} `{RandomSource G} (expr : string)
    (max_rolls : Z) (rules : GuildConfig) : M G (list RollResult) :=
  match match_multi_pattern (strip expr) with
  | Some (g1, g2) =>
      let count := int_digits g1 in
      if count =? 0 then raise (ValueError "擲骰次數必須至少為1")
      else if max_rolls <? count then
        raise (ValueError ("擲骰次數過多 (最多 " ++ str max_rolls ++ ")"))
      else
        let dice_expr := strip g2 in
        parsed_dice <- lift (parse_dice_expr dice_expr rules) ;;
        repeatM (Z.to_nat count) (roll_dice parsed_dice)
  | None =>
      parsed_dice <- lift (parse_dice_expr expr rules) ;;
      r <- roll_dice parsed_dice ;;
      ret [r]
  end.

(** No conversion of a call [roll_multiple_dice(expr, max_rolls, rules)]
    goes beyond the limit: the stripped text, from which every [int(...)]
    of the call and of the parser takes its digits, and the three numbers
    that the messages of the errors print. *)
Definition within_limit (expr : string) (max_rolls : Z) (rules : GuildConfig)
  : bool :=
  convertible (strip expr) && printable max_rolls
  && printable rules.(dnd_max_dice_count)
  && printable rules.(dnd_max_dice_sides).

(* ================================================================== *)
(** ** Rendering: the rest of [utils/dice.py] and [utils/coc.py] *)

(** The one-character text of a line feed. *)
Definition nl : string := String newline "".

(** The number of line feeds of a text. *)
Fixpoint count_nl (s : string) : nat :=
  match s with
  | EmptyString => O
  | String c s' => (if Ascii.eqb c newline then 1 else 0) + count_nl s'
  end.

(** [sep.join(l)]. *)
Fixpoint join (sep : string) (l : list string) : string :=
  match l with
  | [] => ""
  | x :: l' =>
      match l' with
      | [] => x
      | _ :: _ => x ++ sep ++ join sep l'
      end
  end.

(** [enumerate(l)]. *)
Definition enumerate {A} (l : list A) : list (Z * A) :=
  combine (map Z.of_nat (seq 0 (List.length l))) l.

(** The text both renderings of a roll share: the dice joined by [" + "],
    in brackets before a modifier that is not zero, and the total. *)
Definition total_with_mod (result : RollResult) : string :=
  let rolls_str := join " + " (map str result.(rolls)) in
  if negb (result.(result_modifier) =? 0) then
    "(" ++ rolls_str ++ ") + " ++ str result.(result_modifier)
      ++ " = " ++ str result.(total)
  else rolls_str ++ " = " ++ str result.(total).

Definition format_roll_result (result : RollResult) : string :=
  let crit_info :=
    if result.(is_critical_success) then " ✨ 大成功!"
    else if result.(is_critical_fail) then " 💥 大失敗!"
    else "" in
  let comparison_info :=
    match result.(comparison_result) with
    | Some true => "✅ 成功 "
    | Some false => "❌ 失敗 "
    | None => ""
    end in
  "🎲 D&D 擲骰: " ++ result.(dice_expr) ++ " = " ++ total_with_mod result
    ++ crit_info ++ comparison_info.

Definition format_multiple_roll_results (results : list RollResult)
  : string :=
  fold_left
    (fun output '(i, result) =>
       output ++ str (i + 1) ++ ". " ++ result.(dice_expr) ++ " = "
         ++ total_with_mod result ++ nl)
    (enumerate results)
    ("🎲 連續擲骰結果:" ++ nl).

(** The numbers the two renderings print of an outcome, its dice, its
    modifier and its total, are within the limit of [str]: the renderings
    do not raise. *)
Definition renders (result : RollResult) : bool :=
  forallb printable result.(rolls) && printable result.(result_modifier)
  && printable result.(total).

(** [level_map.get(level, ...)]: the six levels, and the text of an unknown
    one. *)
Definition format_success_level (level : Z) : string :=
  if level =? 1 then "大成功 (Critical Success)"
  else if level =? 2 then "極限成功 (Extreme Success)"
  else if level =? 3 then "困難成功 (Hard Success)"
  else if level =? 4 then "普通成功 (Regular Success)"
  else if level =? 5 then "失敗 (Failure)"
  else if level =? 6 then "大失敗 (Critical Failure)"
  else "未知 (Unknown)".

(** What the renderings of a CoC outcome can raise: an exception of the
    classification, or the [IndexError] of [result.rolls[0]]. *)
Inductive render_exn : Type :=
| Classification (e : exn)
| IndexError (msg : string).

Inductive rendered (A : Type) : Type :=
| Text (a : A)
| Fails (e : render_exn).
Arguments Text {A} a.
Arguments Fails {A} e.

(** The outcome is classified again, under the defaults [GuildConfig()]. *)
Definition format_coc_result (result : RollResult) (skill_value : Z)
  : rendered string :=
  match determine_success_level result.(total) skill_value default_config with
  | Raise e => Fails (Classification e)
  | Ok success_level =>
      let success_text := format_success_level success_level in
      let crit_info :=
        if result.(is_critical_success) then " ✨ 大成功!"
        else if result.(is_critical_fail) then " 💥 大失敗!"
        else "" in
      match result.(rolls) with
      | [] => Fails (IndexError "list index out of range")
      | first :: _ =>
          Text ("技能值: " ++ str skill_value ++ nl
                ++ "骰子結果: " ++ str first ++ nl
                ++ "判定結果: " ++ success_text ++ crit_info)
      end
  end.

(** One line of [format_coc_multi_results]. *)
Definition format_coc_line (i : Z) (result : RollResult) (skill_value : Z)
  : rendered string :=
  match determine_success_level result.(total) skill_value default_config with
  | Raise e => Fails (Classification e)
  | Ok success_level =>
      let success_text := format_success_level success_level in
      let crit :=
        if result.(is_critical_success) then " ✨"
        else if result.(is_critical_fail) then " 💥"
        else "" in
      let status :=
        match result.(comparison_result) with
        | Some true => " ✅"
        | Some false => " ❌"
        | None => ""
        end in
      match result.(rolls) with
      | [] => Fails (IndexError "list index out of range")
      | first :: _ =>
          Text (str (i + 1) ++ ". " ++ str first ++ " → " ++ success_text
                ++ crit ++ status ++ nl)
      end
  end.

Definition format_coc_multi_results (results : list RollResult)
    (skill_value : Z) : rendered string :=
  fold_left
    (fun message '(i, result) =>
       match message with
       | Fails e => Fails e
       | Text message =>
           match format_coc_line i result skill_value with
           | Fails e => Fails e
           | Text line => Text (message ++ line)
           end
       end)
    (enumerate results)
    (Text ("連續擲骰次數: " ++ str (Z.of_nat (List.length results)) ++ nl
           ++ "技能值: " ++ str skill_value ++ nl)).

(* ================================================================== *)
(** ** [ConfigManager] of [utils/config.py] *)

Record GlobalConfig : Type := {
  developers : list Z;
  restart_mode : string;
  restart_service : option string;
  global_stream_enabled : bool;
  global_stream_channel : option Z
}.

(** The dataclass [GuildConfig] with all its fields: the two channels of the
    critical rolls, the log channel and the two settings of its stream, and
    the rule fields, the record [GuildConfig] above. *)
Record GuildSettings : Type := {
  log_channel : option Z;
  stream_mode : string;
  stream_throttle : Z;
  crit_success_channel : option Z;
  crit_fail_channel : option Z;
  rule_fields : GuildConfig
}.

(** [GuildConfig()] with all its fields. *)
Definition default_settings : GuildSettings := {|
  log_channel := None;
  stream_mode := "Batch";
  stream_throttle := 1000;
  crit_success_channel := None;
  crit_fail_channel := None;
  rule_fields := default_config
|}.

(** [Dict[int, GuildConfig]]: the items in the order of their insertion. *)
Definition guild_dict : Type := list (Z * GuildSettings).

(** [d.get(k)]. *)
Fixpoint dict_get (k : Z) (d : guild_dict) : option GuildSettings :=
  match d with
  | [] => None
  | (k', v) :: d' => if k' =? k then Some v else dict_get k d'
  end.

(** [d[k] = v]: a known key keeps its place, a new one goes last. *)
Fixpoint dict_set (k : Z) (v : GuildSettings) (d : guild_dict) : guild_dict :=
  match d with
  | [] => [(k, v)]
  | (k', v') :: d' =>
      if k' =? k then (k, v) :: d' else (k', v') :: dict_set k v d'
  end.

(** The manager in memory. *)
Record ConfigManager : Type := {
  config_path : string;
  global_config : GlobalConfig;
  guild_configs : guild_dict
}.

(** [save_config]: the data written to [config_path], the global
    configuration and the guilds (their JSON text is not modelled, and the
    file is taken to accept the write). *)
Definition saved_data : Type := GlobalConfig * guild_dict.

Definition save_config (m : ConfigManager) : saved_data :=
  (m.(global_config), m.(guild_configs)).

(** [save_config] prints the id of every guild as the key of its entry:
    the ids the manager holds are within the limit of [str]. *)
Definition printable_ids (m : ConfigManager) : bool :=
  forallb (fun item => printable (fst item)) m.(guild_configs).

Definition get_guild_config (m : ConfigManager) (guild_id : Z)
  : GuildSettings :=
  match dict_get guild_id m.(guild_configs) with
  | Some config => config
  | None => default_settings
  end.

(** The manager afterwards and what was written to the file. *)
Definition set_guild_config (m : ConfigManager) (guild_id : Z)
    (config : GuildSettings) : ConfigManager * saved_data :=
  let m' := {| config_path := m.(config_path);
               global_config := m.(global_config);
               guild_configs := dict_set guild_id config m.(guild_configs) |}
  in (m', save_config m').

Definition is_developer (m : ConfigManager) (user_id : Z) : bool :=
  contains user_id m.(global_config).(developers).

Definition with_developers (m : ConfigManager) (l : list Z) : ConfigManager :=
  {| config_path := m.(config_path);
     global_config :=
       {| developers := l;
          restart_mode := m.(global_config).(restart_mode);
          restart_service := m.(global_config).(restart_service);
          global_stream_enabled := m.(global_config).(global_stream_enabled);
          global_stream_channel := m.(global_config).(global_stream_channel)
       |};
     guild_configs := m.(guild_configs) |}.

(** [l.remove(x)] for [x] in [l]: the first occurrence goes. *)
Fixpoint list_remove (x : Z) (l : list Z) : list Z :=
  match l with
  | [] => []
  | y :: l' => if y =? x then l' else y :: list_remove x l'
  end.

(** The value returned, the manager afterwards, and what was written to the
    file, if anything. *)
Definition add_developer (m : ConfigManager) (user_id : Z)
  : bool * ConfigManager * option saved_data :=
  if contains user_id m.(global_config).(developers) then (false, m, None)
  else
    let m' := with_developers m (m.(global_config).(developers) ++ [user_id])
    in (true, m', Some (save_config m')).

Definition remove_developer (m : ConfigManager) (user_id : Z)
  : bool * ConfigManager * option saved_data :=
  if negb (contains user_id m.(global_config).(developers)) then
    (false, m, None)
  else
    let m' :=
      with_developers m (list_remove user_id m.(global_config).(developers))
    in (true, m', Some (save_config m')).

(* ================================================================== *)
(** ** The failures of a roll *)

(** The five messages of [parse_dice_expr] and the two of
    [roll_multiple_dice]. *)
Definition is_roll_error (rules : GuildConfig) (max_rolls : Z)
    (msg : string) : Prop :=
  msg = "無效的骰子表達式格式"
  \/ msg = "骰子數量必須至少為1"
  \/ msg = "骰子數量過多 (最多 " ++ str rules.(dnd_max_dice_count) ++ ")"
  \/ msg = "骰子面數必須至少為2"
  \/ msg = "骰子面數過多 (最多 " ++ str rules.(dnd_max_dice_sides) ++ ")"
  \/ msg = "擲骰次數必須至少為1"
  \/ msg = "擲骰次數過多 (最多 " ++ str max_rolls ++ ")".

(* ================================================================== *)
(** ** The classification as the specification words it *)

Inductive SuccessTier : Type :=
| CriticalSuccess
| ExtremeSuccess
| HardSuccess
| RegularSuccess
| Failure
| CriticalFailure.

(** The number [determine_success_level] returns for a tier, as its
    docstring and [format_success_level] give them. *)
Definition level_of_tier (t : SuccessTier) : Z :=
  match t with
  | CriticalSuccess => 1
  | ExtremeSuccess => 2
  | HardSuccess => 3
  | RegularSuccess => 4
  | Failure => 5
  | CriticalFailure => 6
  end.

(** The critical-failure test of the specification. *)
Definition critical_failure_test (roll skillValue : Z) (config : GuildConfig)
  : bool :=
  if skillValue <? 50 then 96 <=? roll
  else roll =? config.(coc_critical_fail).

(** The six rules of the specification, first match wins, the thresholds as
    floors of integer quotients. *)
Definition ClassifyCoc (roll skillValue : Z) (config : GuildConfig)
  : SuccessTier :=
  if roll =? config.(coc_critical_success) then CriticalSuccess
  else if critical_failure_test roll skillValue config then CriticalFailure
  else if (roll =? 100)
          || (roll <=? skillValue / config.(coc_skill_divisor_extreme))
       then ExtremeSuccess
  else if roll <=? skillValue / config.(coc_skill_divisor_hard)
       then HardSuccess
  else if roll <=? skillValue then RegularSuccess
  else Failure.

(* ================================================================== *)
(** * Properties *)

(** ** The scripted source is a random source *)

Lemma tape_randint_range (lo hi : Z) (t : tape) :
  lo <= hi ->
  exists v t', tape_randint lo hi t = (Ok v, t') /\ lo <= v <= hi.
Proof.
  intros Hle. unfold tape_randint.
  destruct (Z.ltb_spec hi lo) as [Hlt | _]; [lia |].
  destruct t as [| x t].
  - exists lo, []. split; [reflexivity | lia].
  - exists (Z.max lo (Z.min hi x)), t. split; [reflexivity | lia].
Qed.

Lemma tape_randint_empty (lo hi : Z) (t : tape) :
  hi < lo ->
  exists msg t', tape_randint lo hi t = (Raise (ValueError msg), t').
Proof.
  intros Hlt. unfold tape_randint.
  destruct (Z.ltb_spec hi lo) as [_ | Hge]; [| lia].
  eexists _, t. reflexivity.
Qed.

#[export] Instance tape_source : RandomSource tape := {|
  randint := tape_randint;
  randint_range := tape_randint_range;
  randint_empty := tape_randint_empty
|}.

(** ** True division on percentages *)

Lemma round_half_even_bounds (a b : Z) :
  0 < b -> a / b <= round_half_even a b <= a / b + 1.
Proof.
  intros Hb. unfold round_half_even.
  destruct (2 * (a mod b) <? b); [lia |].
  destruct (b <? 2 * (a mod b)); [lia |].
  destruct (Z.even (a / b)); lia.
Qed.

(** Scaling a percentage quotient by a power of two above 101 and rounding
    it to an integer does not move it across a scaled integer. *)
Lemma round_scaled_le (P s d r : Z) :
  101 < P -> 1 <= s <= 100 -> 0 < d -> 1 <= r <= 100 ->
  (r * P <=? round_half_even (s * P) d) = (r <=? s / d).
Proof.
  intros HP Hs Hd Hr.
  pose proof (round_half_even_bounds (s * P) d Hd) as [Hlo Hhi].
  destruct (Z.leb_spec r (s / d)) as [Hle | Hgt].
  - apply Z.leb_le.
    assert (r * d <= s).
    { pose proof (Z.mul_div_le s d Hd). nia. }
    assert (r * P <= s * P / d); [| lia].
    apply Z.div_le_lower_bound; [lia | nia].
  - apply Z.leb_gt.
    assert (Hrd : s + 1 <= r * d).
    { pose proof (Z.mul_succ_div_gt s d Hd). nia. }
    destruct (Z.lt_ge_cases d P) as [HdP | HdP].
    + assert (s * P / d < r * P - 1); [| lia].
      apply Z.div_lt_upper_bound; [lia | nia].
    + assert (s * P / d <= s); [| nia].
      apply Z.div_le_upper_bound; [lia | nia].
Qed.

Lemma floor_log2_frac_percent (s d : Z) :
  1 <= s <= 100 -> 0 < d -> floor_log2_frac s d <= 6.
Proof.
  intros Hs Hd. unfold floor_log2_frac.
  assert (Z.log2 s <= 6).
  { change 6 with (Z.log2 100). apply Z.log2_le_mono. lia. }
  pose proof (Z.log2_nonneg d).
  destruct (scale2 s d (Z.log2 s - Z.log2 d)) as [a' b'].
  destruct (b' <=? a'); lia.
Qed.

(** On a percentage and a positive divisor, true division returns a float,
    and an integer of [[1, 100]] is below it exactly when it is below the
    floor of the quotient. *)
Lemma truediv_percent (s d : Z) :
  1 <= s <= 100 -> 0 < d ->
  exists q, truediv s d = Ok q
            /\ forall r, 1 <= r <= 100 -> int_le_float r q = (r <=? s / d).
Proof.
  intros Hs Hd. unfold truediv.
  destruct (Z.eqb_spec d 0) as [? | _]; [lia |].
  destruct (Z.eqb_spec s 0) as [? | _]; [lia |].
  rewrite !Z.abs_eq by lia.
  replace (s <? 0) with false by (symmetry; apply Z.ltb_ge; lia).
  replace (d <? 0) with false by (symmetry; apply Z.ltb_ge; lia).
  unfold round_binary64.
  pose proof (floor_log2_frac_percent s d Hs Hd) as Hl.
  assert (He : -1074 <= ulp_exponent s d <= -46) by (unfold ulp_exponent; lia).
  set (e := ulp_exponent s d) in *.
  unfold scale2.
  destruct (Z.leb_spec 0 e) as [? | _]; [lia |].
  cbn [bindR Bool.eqb].
  eexists. split; [reflexivity |].
  intros r Hr. unfold int_le_float, Qle_bool. cbn [Qnum Qden inject_Z].
  assert (HP : 2 ^ 46 <= 2 ^ (- e)) by (apply Z.pow_le_mono_r; lia).
  rewrite Z2Pos.id by lia. rewrite Z.mul_1_r.
  apply round_scaled_le; lia.
Qed.

(* ================================================================== *)
(** ** The CoC classification *)

(** On percentages and positive divisors the code and the specification's
    rules agree. *)
Lemma determine_success_level_classify
    (roll skillValue : Z) (config : GuildConfig) :
  1 <= roll <= 100 ->
  1 <= skillValue <= 100 ->
  0 < config.(coc_skill_divisor_hard) ->
  0 < config.(coc_skill_divisor_extreme) ->
  determine_success_level roll skillValue config
  = Ok (level_of_tier (ClassifyCoc roll skillValue config)).
Proof.
  intros Hroll Hskill Hhard Hextreme.
  unfold determine_success_level, ClassifyCoc.
  change (is_critical_failure roll skillValue config)
    with (critical_failure_test roll skillValue config).
  destruct (roll =? coc_critical_success config); [reflexivity |].
  destruct (critical_failure_test roll skillValue config); [reflexivity |].
  destruct (truediv_percent skillValue _ Hskill Hhard) as (qh & -> & Hqh).
  destruct (truediv_percent skillValue _ Hskill Hextreme) as (qe & -> & Hqe).
  cbn [bindR]. rewrite Hqh, Hqe by assumption.
  destruct (roll =? 100); cbn [orb]; [reflexivity |].
  destruct (roll <=? skillValue / coc_skill_divisor_extreme config);
    [reflexivity |].
  destruct (roll <=? skillValue / coc_skill_divisor_hard config);
    [reflexivity |].
  destruct (roll <=? skillValue); reflexivity.
Qed.

(** C1.  For a roll and a skill value of [[1, 100]] and positive hard and
    extreme divisors, [determine_success_level] returns the level of the first
    rule that matches, in the order of the specification: the roll equal to
    the critical-success value; the critical-failure test ([roll >= 96] for a
    skill below 50, the roll equal to the critical-fail value otherwise); the
    roll 100 or at most [floor (skill / extreme divisor)]; the roll at most
    [floor (skill / hard divisor)]; the roll at most the skill; failure. *)
Theorem determine_success_level_priority
    (roll skillValue : Z) (config : GuildConfig) :
  1 <= roll <= 100 ->
  1 <= skillValue <= 100 ->
  0 < config.(coc_skill_divisor_hard) ->
  0 < config.(coc_skill_divisor_extreme) ->
  is_critical_failure roll skillValue config
    = critical_failure_test roll skillValue config
  /\ determine_success_level roll skillValue config
     = Ok (level_of_tier (ClassifyCoc roll skillValue config)).
Proof.
  intros Hroll Hskill Hhard Hextreme.
  split; [reflexivity |].
  now apply determine_success_level_classify.
Qed.

(** The theorem at the roll 25 against the skill 50. *)
Lemma determine_success_level_priority_witness :
  (1 <= 25 <= 100) /\ (1 <= 50 <= 100)
  /\ 0 < default_config.(coc_skill_divisor_hard)
  /\ 0 < default_config.(coc_skill_divisor_extreme)
  /\ determine_success_level 25 50 default_config
     = Ok (level_of_tier (ClassifyCoc 25 50 default_config)).
Proof.
  repeat (split; [cbn; lia |]).
  apply (determine_success_level_priority 25 50 default_config); cbn; lia.
Defined.

(** C4, as the code has it.  With the default configuration:
    [ClassifyCoc(1, 30)] is the critical success, [ClassifyCoc(97, 40)] and
    [ClassifyCoc(100, 60)] are the critical failure, [ClassifyCoc(50, 50)] is
    the regular success, and [ClassifyCoc(10, 50)] is the extreme success
    (10 is at most [50 / 5], and the extreme rule comes before the hard one);
    [ClassifyCoc(11, 50)] is a hard success. *)
Theorem determine_success_level_default_instances :
  determine_success_level 1 30 default_config
    = Ok (level_of_tier CriticalSuccess)
  /\ determine_success_level 97 40 default_config
     = Ok (level_of_tier CriticalFailure)
  /\ determine_success_level 100 60 default_config
     = Ok (level_of_tier CriticalFailure)
  /\ determine_success_level 50 50 default_config
     = Ok (level_of_tier RegularSuccess)
  /\ determine_success_level 10 50 default_config
     = Ok (level_of_tier ExtremeSuccess)
  /\ determine_success_level 11 50 default_config
     = Ok (level_of_tier HardSuccess).
Proof. repeat split; vm_compute; reflexivity. Qed.

(** C4 as stated fails on its last instance: [ClassifyCoc(10, 50)] under the
    default configuration is not the hard success. *)
Lemma determine_success_level_10_50_not_hard :
  determine_success_level 10 50 default_config
    <> Ok (level_of_tier HardSuccess).
Proof. vm_compute. discriminate. Qed.

(* ================================================================== *)
(** ** Repeated draws *)

Section Repeat.
Context {G A : Type} (m : M G A).

(** A comprehension over [n] runs of a computation that never raises
    returns [n] results, the one of index [i] being what the run after [i]
    earlier runs returned, and leaves the source as [n] runs leave it. *)
Lemma repeatM_succeeds (Hm : succeeds m) (n : nat) (g : G) :
  exists xs,
    repeatM n m g = (Ok xs, state_after m n g)
    /\ List.length xs = n
    /\ forall i, (i < n)%nat ->
         exists x, nth_error xs i = Some x
                   /\ fst (m (state_after m i g)) = Ok x.
Proof.
  revert g. induction n as [| n IH]; intros g.
  - exists []. repeat split. intros i Hi. lia.
  - destruct (Hm g) as (a & g1 & Hg).
    destruct (IH g1) as (xs & Hrun & Hlen & Hnth).
    exists (a :: xs). cbn [repeatM state_after]. unfold bind at 1.
    rewrite Hg. unfold bind at 1. cbn [snd]. rewrite Hrun.
    repeat split.
    + cbn. now rewrite Hlen.
    + intros [| i] Hi.
      * exists a. cbn. now rewrite Hg.
      * destruct (Hnth i ltac:(lia)) as (x & Hx & Hrun_i).
        exists x. cbn [nth_error state_after]. rewrite Hg. cbn [snd].
        now split.
Qed.

(** A property of every result of [m] holds of every element. *)
Lemma repeatM_Forall (P : A -> Prop)
    (HP : forall g a g', m g = (Ok a, g') -> P a)
    (n : nat) (g : G) (xs : list A) (g' : G) :
  repeatM n m g = (Ok xs, g') -> Forall P xs.
Proof.
  revert g xs g'. induction n as [| n IH]; intros g xs g' Hrun.
  - cbn in Hrun. injection Hrun as <- _. constructor.
  - cbn [repeatM] in Hrun. unfold bind at 1 in Hrun.
    destruct (m g) as [[a | e] g1] eqn:Hg; [| discriminate].
    unfold bind at 1 in Hrun.
    destruct (repeatM n m g1) as [[ys | e] g2] eqn:Hrest; [| discriminate].
    cbn in Hrun. injection Hrun as <- _.
    constructor; [eapply HP; eassumption | eapply IH; eassumption].
Qed.
End Repeat.

Section Evaluator.
Context {G : Type} `{RandomSource G}.

Lemma roll_single_dice_succeeds (n : Z) :
  1 <= n -> succeeds (roll_single_dice (G := G) n).
Proof.
  intros Hn g. destruct (randint_range 1 n g Hn) as (v & g' & Hv & _).
  now exists v, g'.
Qed.

Lemma roll_single_dice_range (n : Z) (g : G) (v : Z) (g' : G) :
  1 <= n -> roll_single_dice n g = (Ok v, g') -> 1 <= v <= n.
Proof.
  intros Hn Hrun.
  destruct (randint_range 1 n g Hn) as (v' & g'' & Hv & Hrange).
  unfold roll_single_dice in Hrun. congruence.
Qed.

(** A run of [roll_dice] that returns has drawn its dice and built the
    outcome from them. *)
Lemma roll_dice_inv (dice : DiceRoll) (g : G) (r : RollResult) (g' : G) :
  roll_dice dice g = (Ok r, g') ->
  repeatM (Z.to_nat dice.(count)) (roll_single_dice dice.(sides)) g
    = (Ok r.(rolls), g')
  /\ r.(total) = sum r.(rolls) + dice.(modifier)
  /\ r.(is_critical_success)
     = (dice.(sides) =? 20) && contains 20 r.(rolls)
  /\ r.(is_critical_fail)
     = (dice.(sides) =? 20) && contains 1 r.(rolls)
  /\ r.(comparison_result)
     = match dice.(comparison) with
       | Some (op, value) =>
           if String.eqb op ">=" then Some (value <=? r.(total))
           else if String.eqb op ">" then Some (value <? r.(total))
           else if String.eqb op "<=" then Some (r.(total) <=? value)
           else if String.eqb op "<" then Some (r.(total) <? value)
           else None
       | None => None
       end.
Proof.
  unfold roll_dice, bind, ret. intros Hrun.
  destruct (repeatM _ _ g) as [[rs | e] g1]; [| discriminate].
  injection Hrun as <- <-. cbn. repeat split.
Qed.

(** With at least one side, [roll_dice] returns. *)
Lemma roll_dice_succeeds (dice : DiceRoll) :
  1 <= dice.(sides) -> succeeds (roll_dice (G := G) dice).
Proof.
  intros Hsides g.
  destruct (repeatM_succeeds _ (roll_single_dice_succeeds _ Hsides)
              (Z.to_nat dice.(count)) g) as (rs & Hrun & _).
  unfold roll_dice, bind, ret. rewrite Hrun. eauto.
Qed.
End Evaluator.

(* ================================================================== *)
(** ** The generic evaluator *)

Section EvaluatorClaims.
Context {G : Type} `{RandomSource G}.

(** C3.  For a specification with [count >= 1] and [sides >= 2], any modifier
    and any random source, [roll_dice] returns an outcome whose [rolls] has
    exactly [count] entries, each in [[1, sides]], the entry of index [i]
    being the die drawn after [i] earlier draws, and whose [total] is
    [sum(rolls) + modifier]. *)
Theorem roll_dice_rolls_total (dice : DiceRoll) (g : G) :
  1 <= dice.(count) ->
  2 <= dice.(sides) ->
  exists r g',
    roll_dice dice g = (Ok r, g')
    /\ Z.of_nat (List.length r.(rolls)) = dice.(count)
    /\ Forall (fun v => 1 <= v <= dice.(sides)) r.(rolls)
    /\ (forall i, (i < List.length r.(rolls))%nat ->
          exists v,
            nth_error r.(rolls) i = Some v
            /\ fst (roll_single_dice dice.(sides)
                      (state_after (roll_single_dice dice.(sides)) i g))
               = Ok v)
    /\ r.(total) = sum r.(rolls) + dice.(modifier).
Proof.
  intros Hcount Hsides.
  assert (Hs1 : 1 <= dice.(sides)) by lia.
  destruct (roll_dice_succeeds dice Hs1 g) as (r & g' & Hrun).
  exists r, g'. split; [exact Hrun |].
  destruct (roll_dice_inv _ _ _ _ Hrun) as (Hdraw & Htotal & _).
  destruct (repeatM_succeeds _ (roll_single_dice_succeeds _ Hs1)
              (Z.to_nat dice.(count)) g) as (rs & Hrs & Hlen & Hnth).
  assert (rs = r.(rolls)) by congruence. subst rs.
  repeat split.
  - rewrite Hlen. lia.
  - eapply repeatM_Forall; [| exact Hdraw].
    intros g0 v g1. now apply roll_single_dice_range.
  - intros i Hi. apply Hnth. now rewrite <- Hlen.
  - exact Htotal.
Qed.

(** C8.  For an evaluated specification: with a comparison [(op, threshold)]
    whose operator is one of [>=], [>], [<=], [<], [comparison_result] is the
    truth value of [total op threshold]; with no comparison it is [None],
    which is neither [Some true] nor [Some false]. *)
Theorem roll_dice_comparison_result
    (dice : DiceRoll) (g : G) (r : RollResult) (g' : G) :
  roll_dice dice g = (Ok r, g') ->
  match dice.(comparison) with
  | Some (op, threshold) =>
      (op = ">=" -> r.(comparison_result) = Some (r.(total) >=? threshold))
      /\ (op = ">" -> r.(comparison_result) = Some (r.(total) >? threshold))
      /\ (op = "<=" -> r.(comparison_result) = Some (r.(total) <=? threshold))
      /\ (op = "<" -> r.(comparison_result) = Some (r.(total) <? threshold))
  | None =>
      r.(comparison_result) = None
      /\ r.(comparison_result) <> Some true
      /\ r.(comparison_result) <> Some false
  end.
Proof.
  intros Hrun.
  destruct (roll_dice_inv _ _ _ _ Hrun) as (_ & _ & _ & _ & Hcmp).
  destruct dice.(comparison) as [[op threshold] |].
  - repeat split; intros ->; rewrite Hcmp; cbn;
      now rewrite ?Z.geb_leb, ?Z.gtb_ltb.
  - rewrite Hcmp. repeat split; discriminate.
Qed.

(** The flags of the evaluator as the code computes them: the literal 20 and
    the literal 1 among the rolls of a twenty-sided die. *)
Lemma roll_dice_critical_flags
    (dice : DiceRoll) (g : G) (r : RollResult) (g' : G) :
  roll_dice dice g = (Ok r, g') ->
  (r.(is_critical_success) = true <-> dice.(sides) = 20 /\ In 20 r.(rolls))
  /\ (r.(is_critical_fail) = true <-> dice.(sides) = 20 /\ In 1 r.(rolls)).
Proof.
  intros Hrun.
  destruct (roll_dice_inv _ _ _ _ Hrun) as (_ & _ & Hs & Hf & _).
  rewrite Hs, Hf. unfold contains.
  rewrite !andb_true_iff, !existsb_exists, Z.eqb_eq.
  split; (split; [intros [Hsd (x & Hin & Hx)] | intros [Hsd Hin]]);
    (split; [exact Hsd |]).
  - apply Z.eqb_eq in Hx. now subst x.
  - exists 20. split; [exact Hin | apply Z.eqb_refl].
  - apply Z.eqb_eq in Hx. now subst x.
  - exists 1. split; [exact Hin | apply Z.eqb_refl].
Qed.

End EvaluatorClaims.

(** The theorem at [2d6+1] on the scripted source that rolls 3 then 5. *)
Lemma roll_dice_rolls_total_witness :
  1 <= 2 /\ 2 <= 6
  /\ exists r g',
       roll_dice {| count := 2; sides := 6; modifier := 1;
                    comparison := None |} ([3; 5] : tape) = (Ok r, g')
       /\ Z.of_nat (List.length r.(rolls)) = 2
       /\ Forall (fun v => 1 <= v <= 6) r.(rolls)
       /\ (forall i, (i < List.length r.(rolls))%nat ->
             exists v,
               nth_error r.(rolls) i = Some v
               /\ fst (roll_single_dice 6
                         (state_after (roll_single_dice 6) i ([3; 5] : tape)))
                  = Ok v)
       /\ r.(total) = sum r.(rolls) + 1.
Proof.
  split; [lia |]. split; [lia |].
  apply (roll_dice_rolls_total
           {| count := 2; sides := 6; modifier := 1; comparison := None |}
           ([3; 5] : tape)); cbn; lia.
Defined.

(** The theorem at [1d20+2>=15] rolling 13. *)
Lemma roll_dice_comparison_result_witness :
  let dice := {| count := 1; sides := 20; modifier := 2;
                 comparison := Some (">=", 15) |} in
  let r := {| dice_expr := "1d20+2"; rolls := [13]; result_modifier := 2;
              total := 15; is_critical_success := false;
              is_critical_fail := false; comparison_result := Some true |} in
  roll_dice dice ([13] : tape) = (Ok r, [])
  /\ ((">=" = ">=" -> r.(comparison_result) = Some (r.(total) >=? 15))
      /\ (">=" = ">" -> r.(comparison_result) = Some (r.(total) >? 15))
      /\ (">=" = "<=" -> r.(comparison_result) = Some (r.(total) <=? 15))
      /\ (">=" = "<" -> r.(comparison_result) = Some (r.(total) <? 15))).
Proof.
  split; [reflexivity |].
  exact (roll_dice_comparison_result
           {| count := 1; sides := 20; modifier := 2;
              comparison := Some (">=", 15) |} ([13] : tape) _ _ eq_refl).
Defined.

(* ================================================================== *)
(** ** Strings of digits *)

Lemma is_digit_not_space (c : ascii) : is_digit c = true -> is_space c = false.
Proof.
  unfold is_digit, is_space. cbv zeta.
  rewrite andb_true_iff, !Z.leb_le. intros [Hlo Hhi].
  rewrite !orb_false_iff, !andb_false_iff, !Z.leb_gt, !Z.eqb_neq. lia.
Qed.

Lemma span_all (p : ascii -> bool) (a : string) :
  all_chars p a = true -> span p a = (a, EmptyString).
Proof.
  induction a as [| c a IH]; cbn; [reflexivity |].
  rewrite andb_true_iff. intros [-> Ha]. now rewrite (IH Ha).
Qed.

Lemma span_app (p : ascii -> bool) (a rest : string) :
  all_chars p a = true -> not_headed p rest = true ->
  span p (a ++ rest) = (a, rest).
Proof.
  intros Ha Hrest. induction a as [| c a IH]; cbn.
  - destruct rest as [| c rest]; [reflexivity |].
    cbn in Hrest |- *. apply negb_true_iff in Hrest. now rewrite Hrest.
  - cbn in Ha. apply andb_true_iff in Ha as [-> Ha]. now rewrite (IH Ha).
Qed.

Lemma string_of_uint_digits (d : Decimal.uint) :
  all_chars is_digit (NilEmpty.string_of_uint d) = true.
Proof.
  induction d; cbn [NilEmpty.string_of_uint all_chars];
    rewrite ?IHd; reflexivity.
Qed.

Lemma string_of_uint_nonempty (d : Decimal.uint) :
  d <> Decimal.Nil -> is_empty (NilEmpty.string_of_uint d) = false.
Proof. destruct d; intros Hd; [contradiction | reflexivity ..]. Qed.

Lemma str_pos (p : positive) : str (Z.pos p) = digits_of p.
Proof.
  unfold str, digits_of. cbn.
  pose proof (Unsigned.to_uint_nonnil p).
  destruct (Pos.to_uint p); [contradiction | reflexivity ..].
Qed.

Lemma str_neg (p : positive) : str (Z.neg p) = String "-" (digits_of p).
Proof.
  unfold str. cbn [Z.to_int NilZero.string_of_int]. f_equal.
  exact (str_pos p).
Qed.

Lemma digits_of_digits (p : positive) : all_chars is_digit (digits_of p) = true.
Proof. apply string_of_uint_digits. Qed.

Lemma digits_of_nonempty (p : positive) : is_empty (digits_of p) = false.
Proof. apply string_of_uint_nonempty, Unsigned.to_uint_nonnil. Qed.

(** [int(str(n)) == n] on the digits of a positive number. *)
Lemma int_digits_of (p : positive) : int_digits (digits_of p) = Z.pos p.
Proof.
  unfold int_digits, digits_of. rewrite NilEmpty.usu.
  unfold Z.of_uint. now rewrite DecimalPos.Unsigned.of_to.
Qed.

(** *** [strip] on a text without blanks *)

Lemma rstrip_no_space (s : string) :
  all_chars (fun c => negb (is_space c)) s = true -> rstrip s = s.
Proof.
  induction s as [| c s IH]; cbn; [reflexivity |].
  rewrite andb_true_iff, negb_true_iff. intros [-> Hs].
  now rewrite (IH Hs).
Qed.

Lemma lstrip_no_space (s : string) :
  all_chars (fun c => negb (is_space c)) s = true -> lstrip s = s.
Proof.
  destruct s as [| c s]; cbn; [reflexivity |].
  rewrite andb_true_iff, negb_true_iff. now intros [-> _].
Qed.

Lemma strip_no_space (s : string) :
  all_chars (fun c => negb (is_space c)) s = true -> strip s = s.
Proof.
  intros Hs. unfold strip. rewrite (lstrip_no_space s Hs).
  now apply rstrip_no_space.
Qed.

Lemma all_chars_app (p : ascii -> bool) (a b : string) :
  all_chars p (a ++ b) = all_chars p a && all_chars p b.
Proof.
  induction a as [| c a IH]; cbn; [reflexivity |].
  now rewrite IH, andb_assoc.
Qed.

Lemma all_chars_weaken (p q : ascii -> bool) (s : string) :
  (forall c, p c = true -> q c = true) ->
  all_chars p s = true -> all_chars q s = true.
Proof.
  intros Hpq. induction s as [| c s IH]; cbn; [reflexivity |].
  rewrite !andb_true_iff. intros [Hc Hs]. auto.
Qed.

Lemma digits_no_space (s : string) :
  all_chars is_digit s = true ->
  all_chars (fun c => negb (is_space c)) s = true.
Proof.
  apply all_chars_weaken. intros c Hc.
  now rewrite (is_digit_not_space c Hc).
Qed.

(* ================================================================== *)
(** ** The parser on canonical renderings *)

(** The pattern on [<count>d<sides>]. *)
Lemma match_dice_pattern_plain (C S : string) :
  all_chars is_digit C = true ->
  all_chars is_digit S = true -> is_empty S = false ->
  match_dice_pattern (C ++ String "d" S)
  = Some {| group1 := C; group2 := S; group3 := None;
            group4 := None; group5 := None |}.
Proof.
  intros HC HS HSne. unfold match_dice_pattern.
  rewrite (span_app is_digit C (String "d" S) HC eq_refl).
  cbn [Ascii.eqb Bool.eqb]. rewrite (span_all is_digit S HS), HSne.
  reflexivity.
Qed.

(** The pattern on [<count>d<sides><sign><digits>]. *)
Lemma match_dice_pattern_signed (C S D : string) (c : ascii) :
  all_chars is_digit C = true ->
  all_chars is_digit S = true -> is_empty S = false ->
  all_chars is_digit D = true -> is_empty D = false ->
  c = "+"%char \/ c = "-"%char ->
  match_dice_pattern (C ++ String "d" (S ++ String c D))
  = Some {| group1 := C; group2 := S; group3 := Some (String c D);
            group4 := None; group5 := None |}.
Proof.
  intros HC HS HSne HD HDne Hc. unfold match_dice_pattern.
  rewrite (span_app is_digit C (String "d" (S ++ String c D)) HC eq_refl).
  cbn [Ascii.eqb Bool.eqb].
  assert (Hhead : not_headed is_digit (String c D) = true)
    by (destruct Hc as [-> | ->]; reflexivity).
  rewrite (span_app is_digit S (String c D) HS Hhead), HSne.
  assert (Hmod : match_modifier (String c D)
                 = (Some (String c D), EmptyString)).
  { unfold match_modifier. rewrite (span_all is_digit D HD), HDne.
    destruct Hc as [-> | ->]; reflexivity. }
  rewrite Hmod. reflexivity.
Qed.

(** The rendering of a specification with positive count and sides. *)
Lemma format_dice_expr_shape (pc ps : positive) (m : Z)
    (cmp : option (string * Z)) :
  format_dice_expr {| count := Z.pos pc; sides := Z.pos ps; modifier := m;
                      comparison := cmp |}
  = match m with
    | 0 => digits_of pc ++ String "d" (digits_of ps)
    | Z.pos pm =>
        digits_of pc ++ String "d" (digits_of ps ++ String "+" (digits_of pm))
    | Z.neg pm =>
        digits_of pc ++ String "d" (digits_of ps ++ String "-" (digits_of pm))
    end.
Proof.
  unfold format_dice_expr. cbn [count sides modifier].
  rewrite !str_pos.
  destruct m as [| pm | pm]; cbn [Z.eqb Z.leb Z.compare].
  - reflexivity.
  - now rewrite str_pos.
  - now rewrite str_neg.
Qed.

Lemma format_dice_expr_no_space (pc ps : positive) (m : Z)
    (cmp : option (string * Z)) :
  all_chars (fun c => negb (is_space c))
    (format_dice_expr {| count := Z.pos pc; sides := Z.pos ps;
                         modifier := m; comparison := cmp |}) = true.
Proof.
  rewrite format_dice_expr_shape.
  pose proof (fun p => digits_no_space _ (digits_of_digits p)) as Hd.
  destruct m as [| pm | pm];
    repeat (rewrite all_chars_app || cbn [all_chars]);
    rewrite !Hd; reflexivity.
Qed.

(** C9.  For a specification with [1 <= count <= dnd_max_dice_count],
    [2 <= sides <= dnd_max_dice_sides] and any modifier, parsing its
    canonical rendering succeeds and returns the same count, sides and
    modifier, with no comparison. *)
Theorem parse_format_dice_expr (d : DiceRoll) (config : GuildConfig) :
  1 <= d.(count) <= config.(dnd_max_dice_count) ->
  2 <= d.(sides) <= config.(dnd_max_dice_sides) ->
  parse_dice_expr (format_dice_expr d) config
  = Ok {| count := d.(count); sides := d.(sides); modifier := d.(modifier);
          comparison := None |}.
Proof.
  destruct d as [c s m cmp]. cbn [count sides modifier].
  intros Hc Hs.
  destruct c as [| pc | pc]; try lia.
  destruct s as [| ps | ps]; try lia.
  unfold parse_dice_expr.
  rewrite (strip_no_space _ (format_dice_expr_no_space pc ps m cmp)).
  rewrite format_dice_expr_shape.
  assert (Hcount : (Z.pos pc =? 0) = false) by reflexivity.
  assert (Hcmax : (dnd_max_dice_count config <? Z.pos pc) = false)
    by (apply Z.ltb_ge; lia).
  assert (Hsides : (Z.pos ps <? 2) = false) by (apply Z.ltb_ge; lia).
  assert (Hsmax : (dnd_max_dice_sides config <? Z.pos ps) = false)
    by (apply Z.ltb_ge; lia).
  destruct m as [| pm | pm].
  - rewrite match_dice_pattern_plain
      by auto using digits_of_digits, digits_of_nonempty.
    cbn [group1 group2 group3 group4 group5].
    rewrite digits_of_nonempty, !int_digits_of, Hcount, Hcmax, Hsides, Hsmax.
    reflexivity.
  - rewrite match_dice_pattern_signed
      by auto using digits_of_digits, digits_of_nonempty.
    cbn [group1 group2 group3 group4 group5].
    rewrite digits_of_nonempty, !int_digits_of, Hcount, Hcmax, Hsides, Hsmax.
    cbn [int_signed Ascii.eqb Bool.eqb]. now rewrite int_digits_of.
  - rewrite match_dice_pattern_signed
      by auto using digits_of_digits, digits_of_nonempty.
    cbn [group1 group2 group3 group4 group5].
    rewrite digits_of_nonempty, !int_digits_of, Hcount, Hcmax, Hsides, Hsmax.
    cbn [int_signed Ascii.eqb Bool.eqb]. now rewrite int_digits_of.
Qed.

(** The theorem at [3d8-2], whose comparison the rendering drops. *)
Lemma parse_format_dice_expr_witness :
  let d := {| count := 3; sides := 8; modifier := -2;
              comparison := Some ("<", 10) |} in
  1 <= d.(count) <= default_config.(dnd_max_dice_count)
  /\ 2 <= d.(sides) <= default_config.(dnd_max_dice_sides)
  /\ format_dice_expr d = "3d8-2"
  /\ parse_dice_expr (format_dice_expr d) default_config
     = Ok {| count := 3; sides := 8; modifier := -2; comparison := None |}.
Proof.
  cbv zeta. split; [cbn; lia |]. split; [cbn; lia |].
  split; [reflexivity |].
  apply (parse_format_dice_expr
           {| count := 3; sides := 8; modifier := -2;
              comparison := Some ("<", 10) |} default_config); cbn; lia.
Defined.

(* ================================================================== *)
(** ** What the parser accepts *)

Lemma int_digits_nonneg (s : string) : 0 <= int_digits s.
Proof.
  unfold int_digits. destruct (NilEmpty.uint_of_string s); [| lia].
  unfold Z.of_uint. apply N2Z.is_nonneg.
Qed.

(** A specification the parser returns is within the bounds of the
    configuration. *)
Lemma parse_dice_expr_valid (expr : string) (rules : GuildConfig)
    (d : DiceRoll) :
  parse_dice_expr expr rules = Ok d ->
  1 <= d.(count) <= rules.(dnd_max_dice_count)
  /\ 2 <= d.(sides) <= rules.(dnd_max_dice_sides).
Proof.
  unfold parse_dice_expr.
  destruct (match_dice_pattern (strip expr)) as [m |]; [| discriminate].
  set (c := if is_empty (group1 m) then 1 else int_digits (group1 m)).
  assert (0 <= c).
  { subst c. destruct (is_empty (group1 m)); [lia |].
    apply int_digits_nonneg. }
  destruct (Z.eqb_spec c 0); [discriminate |].
  destruct (Z.ltb_spec (dnd_max_dice_count rules) c); [discriminate |].
  destruct (Z.ltb_spec (int_digits (group2 m)) 2); [discriminate |].
  destruct (Z.ltb_spec (dnd_max_dice_sides rules) (int_digits (group2 m)));
    [discriminate |].
  intros [= <-]. cbn [count sides]. lia.
Qed.

Lemma span_inv (p : ascii -> bool) (s a b : string) :
  span p s = (a, b) ->
  s = a ++ b /\ all_chars p a = true /\ not_headed p b = true.
Proof.
  revert a b. induction s as [| c s IH]; cbn; intros a b Hspan.
  - injection Hspan as <- <-. now repeat split.
  - destruct (p c) eqn:Hc.
    + destruct (span p s) as [a' b'] eqn:Hs.
      injection Hspan as <- <-.
      destruct (IH a' b' eq_refl) as (-> & Ha & Hb).
      cbn. now rewrite Hc, Ha.
    + injection Hspan as <- <-. cbn. now rewrite Hc.
Qed.

Lemma at_dollar_inv (s : string) :
  at_dollar s = true -> s = "" \/ s = String newline "".
Proof.
  destruct s as [| c [| c' s]]; cbn; try discriminate; [now left |].
  intros Hc. right. apply Ascii.eqb_eq in Hc. now subst c.
Qed.

Lemma append_nil_r (s : string) : s ++ "" = s.
Proof. induction s as [| c s IH]; cbn; [reflexivity | now rewrite IH]. Qed.

Lemma append_assoc (a b c : string) : (a ++ b) ++ c = a ++ b ++ c.
Proof. induction a as [| x a IH]; cbn; [reflexivity | now rewrite IH]. Qed.

Lemma match_body_inv (s body : string) :
  match_body s = Some body ->
  exists tail,
    s = body ++ tail
    /\ all_chars is_dot body = true /\ is_empty body = false
    /\ (tail = "" \/ tail = String newline "").
Proof.
  unfold match_body. destruct (span is_dot s) as [b r] eqn:Hspan.
  destruct (is_empty b) eqn:Hb; cbn [negb andb]; [discriminate |].
  destruct (at_dollar r) eqn:Hr; [| discriminate].
  intros [= <-]. apply span_inv in Hspan as (-> & Hdot & _).
  exists r. repeat split; auto using at_dollar_inv.
Qed.

Lemma match_spaces_body_inv (s body : string) :
  match_spaces_body s = Some body ->
  exists blanks tail,
    s = blanks ++ body ++ tail
    /\ all_chars is_space blanks = true /\ is_empty blanks = false
    /\ all_chars is_dot body = true /\ is_empty body = false
    /\ (tail = "" \/ tail = String newline "").
Proof.
  revert body. induction s as [| c s IH]; cbn; intros body; [discriminate |].
  destruct (is_space c) eqn:Hc; [| discriminate].
  destruct (match_spaces_body s) as [b |] eqn:Hlong; cbn [or_else].
  - intros [= <-].
    destruct (IH b eq_refl) as (blanks & tail & -> & Hbl & _ & Hrest).
    exists (String c blanks), tail. cbn. rewrite Hc, Hbl. now repeat split.
  - intros Hbody.
    destruct (match_body_inv _ _ Hbody) as (tail & -> & Hrest).
    exists (String c ""), tail. cbn. rewrite Hc. now repeat split.
Qed.

(** A match of the wrapper pattern reads the text as an optional [+], the
    digits of the repeat count, at least one blank, and a nested text that
    is not empty and holds no line feed. *)
Lemma match_multi_pattern_inv (s g1 g2 : string) :
  match_multi_pattern s = Some (g1, g2) ->
  exists plus blanks tail,
    s = plus ++ g1 ++ blanks ++ g2 ++ tail
    /\ (plus = "" \/ plus = "+")
    /\ all_chars is_digit g1 = true /\ is_empty g1 = false
    /\ all_chars is_space blanks = true /\ is_empty blanks = false
    /\ all_chars is_dot g2 = true /\ is_empty g2 = false
    /\ (tail = "" \/ tail = String newline "").
Proof.
  unfold match_multi_pattern.
  set (s1 := match s with
             | String c s' => if Ascii.eqb c "+" then s' else s
             | EmptyString => s
             end).
  assert (Hplus : exists plus, s = plus ++ s1 /\ (plus = "" \/ plus = "+")).
  { subst s1. destruct s as [| c s]; [exists ""; auto |].
    destruct (Ascii.eqb_spec c "+") as [-> | _];
      [exists "+" | exists ""]; auto. }
  clearbody s1. destruct Hplus as (plus & -> & Hplus).
  destruct (span is_digit s1) as [d r1] eqn:Hspan.
  destruct (is_empty d) eqn:Hd; [discriminate |].
  destruct (match_spaces_body r1) as [b |] eqn:Hbody; [| discriminate].
  intros [= <- <-].
  apply span_inv in Hspan as (-> & Hdig & _).
  destruct (match_spaces_body_inv _ _ Hbody) as (blanks & tail & -> & Hrest).
  exists plus, blanks, tail. now repeat split.
Qed.

Lemma match_spaces_body_app (blanks body : string) :
  all_chars is_space blanks = true -> is_empty blanks = false ->
  all_chars is_dot body = true -> is_empty body = false ->
  not_headed is_space body = true ->
  match_spaces_body (blanks ++ body) = Some body.
Proof.
  intros Hbl Hne Hdot Hbody Hhead.
  assert (Hlast : or_else (match_spaces_body body) (match_body body)
                  = Some body).
  { destruct body as [| c body]; [discriminate |].
    cbn in Hhead. apply negb_true_iff in Hhead.
    cbn [match_spaces_body]. rewrite Hhead. cbn [or_else].
    unfold match_body. now rewrite (span_all is_dot _ Hdot). }
  induction blanks as [| b blanks IH]; [discriminate |].
  cbn in Hbl. apply andb_true_iff in Hbl as [Hb Hbl].
  cbn [append match_spaces_body]. rewrite Hb.
  destruct blanks as [| b' blanks]; [exact Hlast |].
  now rewrite (IH Hbl eq_refl).
Qed.

(** Conversely, a text of that shape whose nested part begins with no
    blank is matched, with these two groups. *)
Lemma match_multi_pattern_complete (plus g1 blanks g2 : string) :
  plus = "" \/ plus = "+" ->
  all_chars is_digit g1 = true -> is_empty g1 = false ->
  all_chars is_space blanks = true -> is_empty blanks = false ->
  all_chars is_dot g2 = true -> is_empty g2 = false ->
  not_headed is_space g2 = true ->
  match_multi_pattern (plus ++ g1 ++ blanks ++ g2) = Some (g1, g2).
Proof.
  intros Hplus Hdig Hg1 Hbl Hblne Hdot Hg2 Hhead.
  assert (Hrest : not_headed is_digit (blanks ++ g2) = true).
  { destruct blanks as [| b blanks]; [discriminate |].
    cbn in Hbl |- *. apply andb_true_iff in Hbl as [Hb _].
    destruct (is_digit b) eqn:Hd; [| reflexivity].
    apply is_digit_not_space in Hd. congruence. }
  assert (Hgo : match (let (d, r1) := span is_digit (g1 ++ blanks ++ g2) in
                       if is_empty d then None
                       else match match_spaces_body r1 with
                            | Some b => Some (d, b)
                            | None => None
                            end)
                with Some x => Some x | None => None end = Some (g1, g2)).
  { rewrite (span_app is_digit g1 _ Hdig Hrest), Hg1.
    now rewrite (match_spaces_body_app blanks g2). }
  unfold match_multi_pattern.
  destruct Hplus as [-> | ->].
  - cbn [append].
    destruct g1 as [| c g1]; [discriminate |].
    assert (Hc : Ascii.eqb c "+" = false).
    { cbn in Hdig. apply andb_true_iff in Hdig as [Hd _].
      destruct (Ascii.eqb_spec c "+") as [-> | _]; [discriminate | easy]. }
    cbn [append]. rewrite Hc.
    cbn [append] in Hgo.
    destruct (span is_digit _) as [d r1].
    destruct (is_empty d); [discriminate |].
    destruct (match_spaces_body r1); [exact Hgo | discriminate].
  - cbn [append Ascii.eqb Bool.eqb].
    destruct (span is_digit _) as [d r1].
    destruct (is_empty d); [discriminate |].
    destruct (match_spaces_body r1); [exact Hgo | discriminate].
Qed.

(** What [rstrip] returns does not end with a blank. *)
Lemma rstrip_end (s a : string) (c : ascii) :
  rstrip s = a ++ String c "" -> is_space c = false.
Proof.
  revert a. induction s as [| x s IH]; cbn; intros a.
  - destruct a; discriminate.
  - destruct (is_space x && is_empty (rstrip s)) eqn:Hx.
    + destruct a; discriminate.
    + destruct a as [| y a]; cbn.
      * intros [= -> Hr]. rewrite Hr in Hx. cbn in Hx.
        now rewrite andb_true_r in Hx.
      * intros [= _ Hr]. now apply (IH a).
Qed.

Lemma strip_end (s a : string) (c : ascii) :
  strip s = a ++ String c "" -> is_space c = false.
Proof. apply rstrip_end. Qed.

(** The nested text of a match begins with no blank, unless it is one
    blank at the end of the text. *)
Lemma match_spaces_body_head (s body : string) :
  match_spaces_body s = Some body ->
  exists blanks tail,
    s = blanks ++ body ++ tail
    /\ all_chars is_space blanks = true /\ is_empty blanks = false
    /\ all_chars is_dot body = true /\ is_empty body = false
    /\ (tail = "" \/ tail = String newline "")
    /\ (not_headed is_space body = true
        \/ exists c, body = String c "" /\ is_space c = true).
Proof.
  revert body. induction s as [| c s IH]; cbn; intros body; [discriminate |].
  destruct (is_space c) eqn:Hc; [| discriminate].
  destruct (match_spaces_body s) as [b |] eqn:Hlong; cbn [or_else].
  - intros [= <-].
    destruct (IH b eq_refl) as (blanks & tail & -> & Hbl & _ & Hrest).
    exists (String c blanks), tail. cbn. rewrite Hc, Hbl. now repeat split.
  - intros Hbody.
    destruct (match_body_inv _ _ Hbody) as (tail & -> & Hdot & Hne & Htail).
    exists (String c ""), tail. cbn. rewrite Hc.
    repeat split; auto.
    destruct body as [| x body]; [discriminate |]. cbn [not_headed].
    destruct (is_space x) eqn:Hx; [| now left]. right.
    exists x. split; [| exact Hx]. f_equal.
    (* the longer run of blanks failed *)
    cbn [append match_spaces_body] in Hlong. rewrite Hx in Hlong.
    destruct (match_spaces_body (body ++ tail)); [discriminate |].
    cbn [or_else] in Hlong.
    unfold match_body in Hlong, Hbody. cbn [append span] in Hbody.
    cbn [all_chars] in Hdot. apply andb_true_iff in Hdot as [Hxd Hdot].
    rewrite Hxd in Hbody.
    destruct (span is_dot (body ++ tail)) as [b r].
    cbn [is_empty negb andb] in Hbody.
    destruct (at_dollar r); [| discriminate].
    injection Hbody as Hb. subst b.
    destruct body; [reflexivity | discriminate].
Qed.

(** On a stripped text the pattern matches exactly the texts of the wrapper
    shape. *)
Lemma match_multi_pattern_stripped (expr n_text nested : string) :
  match_multi_pattern (strip expr) = Some (n_text, nested) ->
  exists plus blanks,
    strip expr = plus ++ n_text ++ blanks ++ nested
    /\ (plus = "" \/ plus = "+")
    /\ all_chars is_digit n_text = true /\ is_empty n_text = false
    /\ all_chars is_space blanks = true /\ is_empty blanks = false
    /\ all_chars is_dot nested = true /\ is_empty nested = false
    /\ not_headed is_space nested = true.
Proof.
  intros Hm. revert Hm. unfold match_multi_pattern.
  set (s := strip expr).
  assert (Hend : forall a c, s = a ++ String c "" -> is_space c = false)
    by (intros a c; apply strip_end).
  clearbody s.
  set (s1 := match s with
             | String c s' => if Ascii.eqb c "+" then s' else s
             | EmptyString => s
             end).
  assert (Hplus : exists plus, s = plus ++ s1 /\ (plus = "" \/ plus = "+")).
  { subst s1. destruct s as [| c s]; [exists ""; auto |].
    destruct (Ascii.eqb_spec c "+") as [-> | _];
      [exists "+" | exists ""]; auto. }
  clearbody s1. destruct Hplus as (plus & -> & Hplus).
  destruct (span is_digit s1) as [d r1] eqn:Hspan.
  destruct (is_empty d) eqn:Hd; [discriminate |].
  destruct (match_spaces_body r1) as [b |] eqn:Hbody; [| discriminate].
  intros [= <- <-].
  apply span_inv in Hspan as (-> & Hdig & _).
  destruct (match_spaces_body_head _ _ Hbody)
    as (blanks & tail & -> & Hbl & Hblne & Hdot & Hne & Htail & Hhead).
  assert (Htail' : tail = "").
  { destruct Htail as [-> | ->]; [reflexivity |]. exfalso.
    specialize (Hend (plus ++ d ++ blanks ++ b) newline).
    rewrite !append_assoc in Hend. specialize (Hend eq_refl).
    discriminate Hend. }
  subst tail.
  rewrite append_nil_r in *.
  exists plus, blanks. repeat split; auto.
  destruct Hhead as [Hhead | (c & -> & Hc)]; [exact Hhead | exfalso].
  specialize (Hend (plus ++ d ++ blanks) c).
  rewrite !append_assoc in Hend. specialize (Hend eq_refl). congruence.
Qed.

(* ================================================================== *)
(** ** The multi-roll wrapper *)

(** C6.  The wrapper pattern matches the stripped text exactly when it
    reads as an optional [+], the digits of a repeat count, at least one
    blank and a nested text on one line, and its groups are then the digits
    and the nested text.  When the pattern matches and every conversion is
    within the limit of the interpreter (a text of at most 4300 characters,
    a bound and caps of at most 4300 digits), with [N] the repeat count:
    [N = 0] raises the at-least-one error and [N > max_rolls] the too-many
    error; otherwise the nested text is parsed once and the result is a list
    of exactly [N] outcomes, the one of index [i] being the evaluation of
    that one specification after [i] earlier evaluations (a nested text the
    parser rejects raises the parser's error).  When the pattern does not
    match, the whole text is parsed as one single-roll expression and the
    result is the one-element list of its evaluation. *)
Theorem roll_multiple_dice_wrapper {G : Type} `{RandomSource G}
    (expr : string) (max_rolls : Z) (rules : GuildConfig) (g : G) :
  (forall n_text nested,
      match_multi_pattern (strip expr) = Some (n_text, nested)
      <-> exists plus blanks,
            strip expr = plus ++ n_text ++ blanks ++ nested
            /\ (plus = "" \/ plus = "+")
            /\ all_chars is_digit n_text = true /\ is_empty n_text = false
            /\ all_chars is_space blanks = true /\ is_empty blanks = false
            /\ all_chars is_dot nested = true /\ is_empty nested = false
            /\ not_headed is_space nested = true)
  /\ (within_limit expr max_rolls rules = true ->
      match match_multi_pattern (strip expr) with
      | Some (n_text, nested) =>
          let N := int_digits n_text in
          (N = 0 ->
           roll_multiple_dice expr max_rolls rules g
           = (Raise (ValueError "擲骰次數必須至少為1"), g))
          /\ (1 <= N -> max_rolls < N ->
              roll_multiple_dice expr max_rolls rules g
              = (Raise (ValueError
                          ("擲骰次數過多 (最多 " ++ str max_rolls ++ ")")),
                 g))
          /\ (1 <= N <= max_rolls ->
              match parse_dice_expr (strip nested) rules with
              | Ok d =>
                  exists rs,
                    roll_multiple_dice expr max_rolls rules g
                    = (Ok rs, state_after (roll_dice d) (Z.to_nat N) g)
                    /\ Z.of_nat (List.length rs) = N
                    /\ forall i, (i < List.length rs)%nat ->
                         exists r,
                           nth_error rs i = Some r
                           /\ fst (roll_dice d
                                     (state_after (roll_dice d) i g))
                              = Ok r
              | Raise e =>
                  roll_multiple_dice expr max_rolls rules g = (Raise e, g)
              end)
      | None =>
          match parse_dice_expr expr rules with
          | Ok d =>
              exists r g',
                roll_dice d g = (Ok r, g')
                /\ roll_multiple_dice expr max_rolls rules g = (Ok [r], g')
          | Raise e =>
              roll_multiple_dice expr max_rolls rules g = (Raise e, g)
          end
      end).
Proof.
  split.
  { intros n_text nested. split.
    - apply match_multi_pattern_stripped.
    - intros (plus & blanks & -> & Hplus & Hd & Hne & Hbl & Hblne & Hdot
              & Hnest & Hhead).
      now apply match_multi_pattern_complete. }
  intros _. unfold roll_multiple_dice.
  destruct (match_multi_pattern (strip expr)) as [[n_text nested] |] eqn:Hm.
  - cbv zeta.
    pose proof (int_digits_nonneg n_text) as Hnn.
    split; [| split].
    + intros ->. reflexivity.
    + intros HN Hmax.
      destruct (Z.eqb_spec (int_digits n_text) 0); [lia |].
      destruct (Z.ltb_spec max_rolls (int_digits n_text)); [| lia].
      reflexivity.
    + intros HN.
      destruct (Z.eqb_spec (int_digits n_text) 0); [lia |].
      destruct (Z.ltb_spec max_rolls (int_digits n_text)); [lia |].
      destruct (parse_dice_expr (strip nested) rules) as [d | e] eqn:Hp;
        [| reflexivity].
      destruct (parse_dice_expr_valid _ _ _ Hp) as [_ Hsides].
      assert (Hs1 : 1 <= d.(sides)) by lia.
      destruct (repeatM_succeeds _ (roll_dice_succeeds d Hs1)
                  (Z.to_nat (int_digits n_text)) g)
        as (rs & Hrun & Hlen & Hnth).
      exists rs. unfold bind, lift. rewrite Hrun.
      repeat split.
      * rewrite Hlen. lia.
      * intros i Hi. apply Hnth. now rewrite <- Hlen.
  - destruct (parse_dice_expr expr rules) as [d | e] eqn:Hp; [| reflexivity].
    destruct (parse_dice_expr_valid _ _ _ Hp) as [_ Hsides].
    assert (Hs1 : 1 <= d.(sides)) by lia.
    destruct (roll_dice_succeeds d Hs1 g) as (r & g' & Hrun).
    exists r, g'. split; [exact Hrun |].
    unfold bind at 1, lift. unfold bind, ret. now rewrite Hrun.
Qed.

(** ["11 d6"] under a bound of 10 is out of range, and draws nothing. *)
Example roll_multiple_dice_11_d6 :
  roll_multiple_dice "11 d6" 10 default_config ([4; 6; 1; 2] : tape)
  = (Raise (ValueError "擲骰次數過多 (最多 10)"), [4; 6; 1; 2]).
Proof. reflexivity. Qed.

(** ["+3 d6"] under a bound of 10 reads as the wrapper and yields three
    evaluations of [1d6]. *)
Lemma roll_multiple_dice_wrapper_witness :
  match_multi_pattern (strip "+3 d6") = Some ("3", "d6")
  /\ within_limit "+3 d6" 10 default_config = true
  /\ 1 <= int_digits "3" <= 10
  /\ parse_dice_expr (strip "d6") default_config
     = Ok {| count := 1; sides := 6; modifier := 0; comparison := None |}
  /\ exists rs,
       roll_multiple_dice "+3 d6" 10 default_config ([4; 6; 1; 2] : tape)
       = (Ok rs, [2])
       /\ Z.of_nat (List.length rs) = 3
       /\ forall i, (i < List.length rs)%nat ->
            exists r,
              nth_error rs i = Some r
              /\ fst (roll_dice
                        {| count := 1; sides := 6; modifier := 0;
                           comparison := None |}
                        (state_after
                           (roll_dice {| count := 1; sides := 6;
                                         modifier := 0;
                                         comparison := None |})
                           i ([4; 6; 1; 2] : tape)))
                 = Ok r.
Proof.
  assert (Hs : strip "+3 d6" = "+" ++ "3" ++ " " ++ "d6") by reflexivity.
  assert (Hl : within_limit "+3 d6" 10 default_config = true)
    by (vm_compute; reflexivity).
  assert (HN : int_digits "3" = 3) by reflexivity.
  assert (Hp : parse_dice_expr (strip "d6") default_config
               = Ok {| count := 1; sides := 6; modifier := 0;
                       comparison := None |}) by reflexivity.
  pose proof (roll_multiple_dice_wrapper "+3 d6" 10 default_config
                ([4; 6; 1; 2] : tape)) as [Hshape Hw].
  assert (Hm : match_multi_pattern (strip "+3 d6") = Some ("3", "d6")).
  { apply Hshape. exists "+", " ". rewrite Hs. now repeat split; auto. }
  split; [exact Hm |]. split; [exact Hl |].
  split; [rewrite HN; lia |]. split; [exact Hp |].
  specialize (Hw Hl). rewrite Hm in Hw. cbv zeta in Hw.
  destruct Hw as (_ & _ & Hrun).
  rewrite HN, Hp in Hrun.
  destruct (Hrun ltac:(lia)) as (rs & Hrs & Hlen & Hnth).
  exists rs. split; [exact Hrs |]. split; [exact Hlen | exact Hnth].
Defined.

(* ================================================================== *)
(** ** Instances of the parser *)

(** C5, as the code has it.  ["2d6+1"] parses to count 2, sides 6, modifier
    1 and no comparison; ["d20>=15"] to count 1, sides 20, modifier 0 and
    the comparison [(">=", 15)]; ["0d6"] and ["d1"] raise the errors of the
    count and of the sides, ["abc"] the error of the format.  The three
    errors are [ValueError]s: one exception class, told apart by their
    messages only. *)
Theorem parse_dice_expr_instances :
  parse_dice_expr "2d6+1" default_config
  = Ok {| count := 2; sides := 6; modifier := 1; comparison := None |}
  /\ parse_dice_expr "d20>=15" default_config
     = Ok {| count := 1; sides := 20; modifier := 0;
             comparison := Some (">=", 15) |}
  /\ parse_dice_expr "0d6" default_config
     = Raise (ValueError "骰子數量必須至少為1")
  /\ parse_dice_expr "d1" default_config
     = Raise (ValueError "骰子面數必須至少為2")
  /\ parse_dice_expr "abc" default_config
     = Raise (ValueError "無效的骰子表達式格式")
  /\ "骰子數量必須至少為1" <> "無效的骰子表達式格式"
  /\ "骰子面數必須至少為2" <> "無效的骰子表達式格式".
Proof. repeat split; try reflexivity; discriminate. Qed.

(** C5 as stated fails on the typed kinds: the range error of ["0d6"] and
    the format error of ["abc"] are exceptions of the same class. *)
Lemma parse_dice_expr_errors_one_class :
  exists e_range e_format,
    parse_dice_expr "0d6" default_config = Raise e_range
    /\ parse_dice_expr "abc" default_config = Raise e_format
    /\ class_of e_range = class_of e_format.
Proof. do 2 eexists. repeat split. Qed.

(* ================================================================== *)
(** ** The CoC resolver *)

Section ResolverClaims.
Context {G : Type} `{RandomSource G}.

Lemma roll_coc_succeeds (skill_value : Z) (rules : GuildConfig) :
  1 <= skill_value <= 100 ->
  0 < rules.(coc_skill_divisor_hard) ->
  0 < rules.(coc_skill_divisor_extreme) ->
  succeeds (roll_coc (G := G) skill_value rules).
Proof.
  intros Hskill Hhard Hextreme g. unfold roll_coc, bind, lift, ret.
  destruct (randint_range 1 100 g ltac:(lia)) as (v & g' & -> & Hv).
  rewrite (determine_success_level_classify v skill_value rules)
    by assumption.
  eauto.
Qed.

Lemma roll_coc_percentile (skill_value : Z) (rules : GuildConfig)
    (g : G) (r : RollResult) (g' : G) :
  roll_coc skill_value rules g = (Ok r, g') ->
  r.(rolls) = [r.(total)] /\ 1 <= r.(total) <= 100
  /\ fst (randint 1 100 g) = Ok r.(total).
Proof.
  unfold roll_coc, bind, lift, ret.
  destruct (randint_range 1 100 g ltac:(lia)) as (v & g1 & -> & Hv).
  destruct (determine_success_level v skill_value rules); [| discriminate].
  intros [= <- <-]. cbn. auto.
Qed.

(** C7, as the code has it.  [roll_coc_multi] checks no range: for a skill
    of [[1, 100]], positive divisors and any [times] it returns exactly
    [max(1, times)] outcomes, so exactly [times] of them for [times] in
    [[1, 10]]; the outcome of index [i] is the resolution made after [i]
    earlier ones, and each holds one percentile roll of [[1, 100]]. *)
Theorem roll_coc_multi_outcomes
    (skill_value times : Z) (rules : GuildConfig) (g : G) :
  1 <= skill_value <= 100 ->
  0 < rules.(coc_skill_divisor_hard) ->
  0 < rules.(coc_skill_divisor_extreme) ->
  exists rs g',
    roll_coc_multi skill_value times rules g = (Ok rs, g')
    /\ Z.of_nat (List.length rs) = Z.max 1 times
    /\ (1 <= times <= 10 -> Z.of_nat (List.length rs) = times)
    /\ (forall i, (i < List.length rs)%nat ->
          exists r,
            nth_error rs i = Some r
            /\ fst (roll_coc skill_value rules
                      (state_after (roll_coc skill_value rules) i g))
               = Ok r)
    /\ Forall (fun r => r.(rolls) = [r.(total)] /\ 1 <= r.(total) <= 100) rs.
Proof.
  intros Hskill Hhard Hextreme. unfold roll_coc_multi.
  destruct (repeatM_succeeds _
              (roll_coc_succeeds skill_value rules Hskill Hhard Hextreme)
              (Z.to_nat (Z.max 1 times)) g) as (rs & Hrun & Hlen & Hnth).
  exists rs, (state_after (roll_coc skill_value rules)
                (Z.to_nat (Z.max 1 times)) g).
  split; [exact Hrun |].
  assert (Hl : Z.of_nat (List.length rs) = Z.max 1 times)
    by (rewrite Hlen; lia).
  repeat split.
  - exact Hl.
  - lia.
  - intros i Hi. apply Hnth. now rewrite <- Hlen.
  - eapply repeatM_Forall; [| exact Hrun].
    intros g0 r g1 Hr.
    destruct (roll_coc_percentile _ _ _ _ _ Hr) as (Hrolls & Hrange & _).
    now split.
Qed.

End ResolverClaims.

(** The theorem at the skill 50 resolved twice, rolling 7 then 100. *)
Lemma roll_coc_multi_outcomes_witness :
  1 <= 50 <= 100
  /\ 0 < default_config.(coc_skill_divisor_hard)
  /\ 0 < default_config.(coc_skill_divisor_extreme)
  /\ exists rs g',
       roll_coc_multi 50 2 default_config ([7; 100] : tape) = (Ok rs, g')
       /\ Z.of_nat (List.length rs) = Z.max 1 2
       /\ (1 <= 2 <= 10 -> Z.of_nat (List.length rs) = 2)
       /\ (forall i, (i < List.length rs)%nat ->
             exists r,
               nth_error rs i = Some r
               /\ fst (roll_coc 50 default_config
                         (state_after (roll_coc 50 default_config) i
                            ([7; 100] : tape)))
                  = Ok r)
       /\ Forall (fun r => r.(rolls) = [r.(total)] /\ 1 <= r.(total) <= 100)
            rs.
Proof.
  repeat (split; [cbn; lia |]).
  apply (roll_coc_multi_outcomes 50 2 default_config ([7; 100] : tape));
    cbn; lia.
Defined.

(** C7 as stated fails outside [[1, 10]]: [times = 0] returns one outcome
    and [times = 11] returns eleven, and neither raises. *)
Lemma roll_coc_multi_out_of_range_returns :
  (exists rs g',
      roll_coc_multi 50 0 default_config ([7] : tape) = (Ok rs, g')
      /\ List.length rs = 1%nat)
  /\ (exists rs g',
        roll_coc_multi 50 11 default_config ([7] : tape) = (Ok rs, g')
        /\ List.length rs = 11%nat).
Proof. split; do 2 eexists; split; vm_compute; reflexivity. Qed.

(* ================================================================== *)
(** ** The critical flags of the evaluator *)

(** C2, on the code.  Under a configuration whose critical-success value is
    19 and whose critical-fail value is 2, a [d20] that rolls 19 is not
    flagged a critical success and one that rolls 2 is not flagged a
    critical failure, while the rolls 20 and 1 are flagged: [roll_dice]
    tests the literals 20 and 1 and never reads the configuration. *)
Theorem roll_dice_flags_ignore_config :
  let rules := {| dnd_critical_success := 19; dnd_critical_fail := 2;
                  dnd_max_dice_count := 50; dnd_max_dice_sides := 1000;
                  coc_critical_success := 1; coc_critical_fail := 100;
                  coc_skill_divisor_hard := 2;
                  coc_skill_divisor_extreme := 5 |} in
  let flags := fun t : tape =>
    match fst (roll_multiple_dice "d20" 50 rules t) with
    | Ok [r] => Some (r.(rolls), r.(is_critical_success), r.(is_critical_fail))
    | _ => None
    end in
  flags [19] = Some ([19], false, false)
  /\ flags [2] = Some ([2], false, false)
  /\ flags [20] = Some ([20], true, false)
  /\ flags [1] = Some ([1], false, true).
Proof. repeat split. Qed.

(** C10.  The two flags are not exclusive: [2d20], a valid specification
    under the default configuration, rolling 20 then 1 is flagged both a
    critical success and a critical failure. *)
Theorem roll_dice_both_flags :
  exists (dice : DiceRoll) (t : tape) (r : RollResult) (t' : tape),
    parse_dice_expr "2d20" default_config = Ok dice
    /\ roll_dice dice t = (Ok r, t')
    /\ r.(rolls) = [20; 1]
    /\ r.(is_critical_success) = true
    /\ r.(is_critical_fail) = true.
Proof.
  exists {| count := 2; sides := 20; modifier := 0; comparison := None |},
    [20; 1].
  do 2 eexists. repeat split.
Qed.

(* ================================================================== *)
(** * Further properties of the code *)

(** ** Blanks around an expression *)

Lemma all_space_lstrip (s : string) :
  all_chars is_space s = true -> lstrip s = "".
Proof.
  induction s as [| c s IH]; cbn; [reflexivity |].
  rewrite andb_true_iff. intros [-> Hs]. auto.
Qed.

Lemma all_space_rstrip (s : string) :
  all_chars is_space s = true -> rstrip s = "".
Proof.
  induction s as [| c s IH]; cbn; [reflexivity |].
  rewrite andb_true_iff. intros [-> Hs]. now rewrite (IH Hs).
Qed.

Lemma lstrip_app_blank (pre s : string) :
  all_chars is_space pre = true -> lstrip (pre ++ s) = lstrip s.
Proof.
  induction pre as [| c pre IH]; cbn; [reflexivity |].
  rewrite andb_true_iff. intros [-> Hpre]. auto.
Qed.

Lemma rstrip_app_blank (s post : string) :
  all_chars is_space post = true -> rstrip (s ++ post) = rstrip s.
Proof.
  intros Hpost. induction s as [| c s IH]; cbn.
  - now apply all_space_rstrip.
  - now rewrite IH.
Qed.

(** What [lstrip] leaves of a text followed by blanks. *)
Lemma lstrip_then_blank (s post : string) :
  all_chars is_space post = true ->
  rstrip (lstrip (s ++ post)) = rstrip (lstrip s).
Proof.
  intros Hpost. induction s as [| c s IH]; cbn.
  - now rewrite (all_space_lstrip post Hpost).
  - destruct (is_space c); [exact IH |].
    change (String c (s ++ post)) with (String c s ++ post).
    now apply rstrip_app_blank.
Qed.

Lemma strip_blank_around (pre s post : string) :
  all_chars is_space pre = true -> all_chars is_space post = true ->
  strip (pre ++ s ++ post) = strip s.
Proof.
  intros Hpre Hpost. unfold strip.
  rewrite (lstrip_app_blank pre _ Hpre).
  now apply lstrip_then_blank.
Qed.

(** The parser and the multi-roll entry point do not see the blanks before
    and after an expression: they return, raise and draw as on the bare
    expression. *)
Theorem blanks_around_expression_ignored {G : Type} `{RandomSource G}
    (pre expr post : string) (max_rolls : Z) (rules : GuildConfig) (g : G) :
  all_chars is_space pre = true ->
  all_chars is_space post = true ->
  parse_dice_expr (pre ++ expr ++ post) rules = parse_dice_expr expr rules
  /\ roll_multiple_dice (pre ++ expr ++ post) max_rolls rules g
     = roll_multiple_dice expr max_rolls rules g.
Proof.
  intros Hpre Hpost.
  assert (Hparse : parse_dice_expr (pre ++ expr ++ post) rules
                   = parse_dice_expr expr rules).
  { unfold parse_dice_expr. now rewrite strip_blank_around. }
  split; [exact Hparse |].
  unfold roll_multiple_dice.
  rewrite (strip_blank_around pre expr post Hpre Hpost), Hparse.
  reflexivity.
Qed.

(** The theorem at ["  2d6+1 "] followed by a tab. *)
Lemma blanks_around_expression_ignored_witness :
  parse_dice_expr ("  " ++ "2d6+1" ++ String (ascii_of_nat 9) " ")
    default_config
  = parse_dice_expr "2d6+1" default_config
  /\ roll_multiple_dice ("  " ++ "2d6+1" ++ String (ascii_of_nat 9) " ") 10
       default_config ([3; 4] : tape)
     = roll_multiple_dice "2d6+1" 10 default_config ([3; 4] : tape).
Proof.
  apply (blanks_around_expression_ignored "  " "2d6+1"
           (String (ascii_of_nat 9) " ") 10 default_config ([3; 4] : tape));
    reflexivity.
Defined.

(** ** What the parser returns *)

Lemma match_operator_inv (op s o v : string) :
  match_operator op s = Some (o, v) -> o = op /\ is_empty v = false.
Proof.
  unfold match_operator.
  destruct (drop_prefix op s) as [r |]; [| discriminate].
  destruct (span is_space r) as [ws r1].
  destruct (span is_digit r1) as [ds r2].
  destruct (is_empty ds) eqn:Hds; cbn [negb andb]; [discriminate |].
  destruct (at_dollar r2); [| discriminate].
  now intros [= <- <-].
Qed.

Lemma match_comparison_inv (s o v : string) :
  match_comparison s = Some (o, v) -> is_operator o /\ is_empty v = false.
Proof.
  unfold match_comparison, is_operator.
  destruct (span is_space s) as [ws r].
  destruct (match_operator ">=" r) as [[o1 v1] |] eqn:H1; cbn [or_else].
  { intros [= <- <-]. apply match_operator_inv in H1 as [-> Hv]. auto. }
  destruct (match_operator "<=" r) as [[o2 v2] |] eqn:H2; cbn [or_else].
  { intros [= <- <-]. apply match_operator_inv in H2 as [-> Hv]. auto. }
  destruct (match_operator ">" r) as [[o3 v3] |] eqn:H3; cbn [or_else].
  { intros [= <- <-]. apply match_operator_inv in H3 as [-> Hv]. auto. }
  intros H4. apply match_operator_inv in H4 as [-> Hv]. auto 6.
Qed.

Lemma match_dice_pattern_groups (s : string) (m : dice_groups) :
  match_dice_pattern s = Some m ->
  match m.(group4), m.(group5) with
  | Some op, Some v => is_operator op /\ is_empty v = false
  | None, None => True
  | _, _ => False
  end.
Proof.
  unfold match_dice_pattern.
  destruct (span is_digit s) as [g1 r1].
  destruct r1 as [| c r2]; [discriminate |].
  destruct (Ascii.eqb c "d"); [| discriminate].
  destruct (span is_digit r2) as [g2 r3].
  destruct (is_empty g2); [discriminate |].
  destruct (match_modifier r3) as [g3 r4].
  destruct (match_comparison r4) as [[op v] |] eqn:Hcmp.
  - intros [= <-]. cbn. now apply match_comparison_inv in Hcmp.
  - destruct (at_dollar r4); [| discriminate].
    intros [= <-]. exact I.
Qed.

(** The comparison of a parsed specification, when there is one, has one of
    the four operators and a threshold that is not negative. *)
Lemma parse_dice_expr_comparison (expr : string) (rules : GuildConfig)
    (d : DiceRoll) :
  parse_dice_expr expr rules = Ok d ->
  match d.(comparison) with
  | Some (op, threshold) => is_operator op /\ 0 <= threshold
  | None => True
  end.
Proof.
  unfold parse_dice_expr.
  destruct (match_dice_pattern (strip expr)) as [m |] eqn:Hm;
    [| discriminate].
  apply match_dice_pattern_groups in Hm.
  destruct (_ =? 0); [discriminate |].
  destruct (_ <? _); [discriminate |].
  destruct (_ <? 2); [discriminate |].
  destruct (_ <? _); [discriminate |].
  intros [= <-]. cbn [comparison].
  destruct (group4 m) as [op |], (group5 m) as [v |]; try exact I.
  destruct Hm as [Hop Hv].
  destruct (negb (is_empty op) && negb (is_empty v)); [| exact I].
  split; [exact Hop | apply int_digits_nonneg].
Qed.

(** A specification the parser returns respects the caps of the
    configuration, and its comparison, when it has one, bears one of the
    four operators and a threshold that is not negative. *)
Theorem parsed_specification_well_formed (expr : string)
    (rules : GuildConfig) (d : DiceRoll) :
  parse_dice_expr expr rules = Ok d ->
  1 <= d.(count) <= rules.(dnd_max_dice_count)
  /\ 2 <= d.(sides) <= rules.(dnd_max_dice_sides)
  /\ match d.(comparison) with
     | Some (op, threshold) => is_operator op /\ 0 <= threshold
     | None => True
     end.
Proof.
  intros Hp.
  destruct (parse_dice_expr_valid _ _ _ Hp) as [Hc Hs].
  repeat split; try lia.
  now apply (parse_dice_expr_comparison expr rules).
Qed.

(** The theorem at ["3d8-2 <= 10"]. *)
Lemma parsed_specification_well_formed_witness :
  parse_dice_expr "3d8-2 <= 10" default_config
  = Ok {| count := 3; sides := 8; modifier := -2;
          comparison := Some ("<=", 10) |}
  /\ 1 <= 3 <= default_config.(dnd_max_dice_count)
  /\ 2 <= 8 <= default_config.(dnd_max_dice_sides)
  /\ is_operator "<=" /\ 0 <= 10.
Proof.
  split; [reflexivity |].
  exact (parsed_specification_well_formed "3d8-2 <= 10" default_config
           {| count := 3; sides := 8; modifier := -2;
              comparison := Some ("<=", 10) |} eq_refl).
Defined.

Section ParsedRolls.
Context {G : Type} `{RandomSource G}.

(** Rolling a parsed specification returns, and the comparison of the
    expression is always decided: the outcome bears a truth value exactly
    when the expression has a comparison, never the not-applicable value
    that an unknown operator would leave. *)
Theorem parsed_roll_decides_comparison (expr : string) (rules : GuildConfig)
    (d : DiceRoll) (g : G) :
  parse_dice_expr expr rules = Ok d ->
  exists r g',
    roll_dice d g = (Ok r, g')
    /\ match d.(comparison) with
       | Some _ =>
           r.(comparison_result) = Some true
           \/ r.(comparison_result) = Some false
       | None => r.(comparison_result) = None
       end.
Proof.
  intros Hp.
  destruct (parse_dice_expr_valid _ _ _ Hp) as [_ Hs].
  destruct (roll_dice_succeeds d ltac:(lia) g) as (r & g' & Hrun).
  exists r, g'. split; [exact Hrun |].
  destruct (roll_dice_inv _ _ _ _ Hrun) as (_ & _ & _ & _ & Hcmp).
  pose proof (parse_dice_expr_comparison _ _ _ Hp) as Hop.
  rewrite Hcmp. destruct d.(comparison) as [[op v] |]; [| reflexivity].
  destruct Hop as [[-> | [-> | [-> | ->]]] _]; cbn;
    match goal with |- Some ?b = _ \/ _ => destruct b end; auto.
Qed.

End ParsedRolls.

(** The theorem at ["d20 < 5"] rolling 7. *)
Lemma parsed_roll_decides_comparison_witness :
  parse_dice_expr "d20 < 5" default_config
  = Ok {| count := 1; sides := 20; modifier := 0;
          comparison := Some ("<", 5) |}
  /\ exists r g',
       roll_dice {| count := 1; sides := 20; modifier := 0;
                    comparison := Some ("<", 5) |} ([7] : tape) = (Ok r, g')
       /\ (r.(comparison_result) = Some true
           \/ r.(comparison_result) = Some false).
Proof.
  split; [reflexivity |].
  exact (parsed_roll_decides_comparison "d20 < 5" default_config
           {| count := 1; sides := 20; modifier := 0;
              comparison := Some ("<", 5) |} ([7] : tape) eq_refl).
Defined.

(* ================================================================== *)
(** ** Bounds of a roll *)

Lemma fold_left_add (l : list Z) (a : Z) :
  fold_left Z.add l a = a + fold_left Z.add l 0.
Proof.
  revert a. induction l as [| x l IH]; intros a; cbn; [lia |].
  rewrite (IH (a + x)), (IH x). lia.
Qed.

Lemma sum_cons (x : Z) (l : list Z) : sum (x :: l) = x + sum l.
Proof. unfold sum. cbn. apply fold_left_add. Qed.

Lemma sum_bounds (lo hi : Z) (l : list Z) :
  Forall (fun v => lo <= v <= hi) l ->
  lo * Z.of_nat (List.length l) <= sum l <= hi * Z.of_nat (List.length l).
Proof.
  induction 1 as [| x l Hx _ IH]; [cbn; lia |].
  rewrite sum_cons. cbn [List.length]. lia.
Qed.

Section RollBounds.
Context {G : Type} `{RandomSource G}.

(** What a returned outcome says of its dice. *)
Lemma roll_dice_outcome (dice : DiceRoll) (g : G) (r : RollResult) (g' : G) :
  1 <= dice.(sides) ->
  roll_dice dice g = (Ok r, g') ->
  List.length r.(rolls) = Z.to_nat dice.(count)
  /\ Forall (fun v => 1 <= v <= dice.(sides)) r.(rolls)
  /\ r.(total) = sum r.(rolls) + dice.(modifier)
  /\ r.(dice_expr) = format_dice_expr dice
  /\ r.(result_modifier) = dice.(modifier).
Proof.
  intros Hs Hrun.
  destruct (roll_dice_inv _ _ _ _ Hrun) as (Hdraw & Htotal & _).
  destruct (repeatM_succeeds _ (roll_single_dice_succeeds _ Hs)
              (Z.to_nat dice.(count)) g) as (rs & Hrs & Hlen & _).
  assert (rs = r.(rolls)) by congruence. subst rs.
  split; [exact Hlen |]. split; [| split; [exact Htotal |]].
  - eapply repeatM_Forall; [| exact Hdraw].
    intros g0 v g1. now apply roll_single_dice_range.
  - unfold roll_dice, bind, ret in Hrun.
    destruct (repeatM _ _ g) as [[xs | e] g1]; [| discriminate].
    injection Hrun as <- _. now split.
Qed.

(** With no negative count and at least one side, a roll returns and its
    total lies between [count + modifier] (every die a one) and
    [count * sides + modifier] (every die its highest face). *)
Theorem roll_dice_total_bounds (dice : DiceRoll) (g : G) :
  0 <= dice.(count) ->
  1 <= dice.(sides) ->
  exists r g',
    roll_dice dice g = (Ok r, g')
    /\ dice.(count) + dice.(modifier) <= r.(total)
       <= dice.(count) * dice.(sides) + dice.(modifier).
Proof.
  intros Hc Hs.
  destruct (roll_dice_succeeds dice Hs g) as (r & g' & Hrun).
  exists r, g'. split; [exact Hrun |].
  destruct (roll_dice_outcome _ _ _ _ Hs Hrun) as (Hlen & Hall & -> & _).
  pose proof (sum_bounds 1 dice.(sides) _ Hall) as Hsum.
  rewrite Hlen, Z2Nat.id in Hsum by lia. lia.
Qed.

End RollBounds.

(** The theorem at [3d6-2] on the scripted source that rolls 6, 1 and 4. *)
Lemma roll_dice_total_bounds_witness :
  0 <= 3 /\ 1 <= 6
  /\ exists r g',
       roll_dice {| count := 3; sides := 6; modifier := -2;
                    comparison := None |} ([6; 1; 4] : tape) = (Ok r, g')
       /\ 3 + -2 <= r.(total) <= 3 * 6 + -2.
Proof.
  split; [lia |]. split; [lia |].
  apply (roll_dice_total_bounds
           {| count := 3; sides := 6; modifier := -2; comparison := None |}
           ([6; 1; 4] : tape)); cbn; lia.
Defined.

(* ================================================================== *)
(** ** The list that [roll_multiple_dice] returns *)

Section MultipleRolls.
Context {G : Type} `{RandomSource G}.

Lemma repeatM_length {A : Type} (m : M G A) (n : nat) (g : G)
    (xs : list A) (g' : G) :
  repeatM n m g = (Ok xs, g') -> List.length xs = n.
Proof.
  revert g xs g'. induction n as [| n IH]; intros g xs g' Hrun.
  - cbn in Hrun. now injection Hrun as <- _.
  - cbn [repeatM] in Hrun. unfold bind at 1 in Hrun.
    destruct (m g) as [[a | e] g1]; [| discriminate].
    unfold bind at 1 in Hrun.
    destruct (repeatM n m g1) as [[ys | e] g2] eqn:Hrest; [| discriminate].
    cbn in Hrun. injection Hrun as <- _. cbn. f_equal. eauto.
Qed.

(** Whenever [roll_multiple_dice] returns, its list is not empty (callers
    read its first element), holds at most [max(1, max_rolls)] outcomes, and
    all of them are rolls of one specification within the caps of the
    configuration: the same rendered expression, [count] dice of
    [[1, sides]] each, and the total of these dice plus the modifier. *)
Theorem roll_multiple_dice_results (expr : string) (max_rolls : Z)
    (rules : GuildConfig) (g : G) (rs : list RollResult) (g' : G) :
  roll_multiple_dice expr max_rolls rules g = (Ok rs, g') ->
  1 <= Z.of_nat (List.length rs) <= Z.max 1 max_rolls
  /\ exists d,
       1 <= d.(count) <= rules.(dnd_max_dice_count)
       /\ 2 <= d.(sides) <= rules.(dnd_max_dice_sides)
       /\ Forall (fun r =>
                    r.(dice_expr) = format_dice_expr d
                    /\ Z.of_nat (List.length r.(rolls)) = d.(count)
                    /\ Forall (fun v => 1 <= v <= d.(sides)) r.(rolls)
                    /\ r.(total) = sum r.(rolls) + d.(modifier)) rs.
Proof.
  assert (Hone : forall d g0 r g1,
    1 <= d.(count) -> 2 <= d.(sides) ->
    roll_dice d g0 = (Ok r, g1) ->
    r.(dice_expr) = format_dice_expr d
    /\ Z.of_nat (List.length r.(rolls)) = d.(count)
    /\ Forall (fun v => 1 <= v <= d.(sides)) r.(rolls)
    /\ r.(total) = sum r.(rolls) + d.(modifier)).
  { intros d g0 r g1 Hc Hs Hrun.
    destruct (roll_dice_outcome d g0 r g1 ltac:(lia) Hrun)
      as (Hlen & Hall & Htot & Hexpr & _).
    repeat split; auto. rewrite Hlen. lia. }
  unfold roll_multiple_dice.
  destruct (match_multi_pattern (strip expr)) as [[g1 g2] |].
  - pose proof (int_digits_nonneg g1) as Hnn.
    destruct (Z.eqb_spec (int_digits g1) 0); [discriminate |].
    destruct (Z.ltb_spec max_rolls (int_digits g1)); [discriminate |].
    unfold bind at 1, lift.
    destruct (parse_dice_expr (strip g2) rules) as [d | e] eqn:Hp;
      [| discriminate].
    destruct (parse_dice_expr_valid _ _ _ Hp) as [Hc Hs].
    intros Hrun. pose proof (repeatM_length _ _ _ _ _ Hrun) as Hlen.
    split; [rewrite Hlen; lia |].
    exists d. repeat split; try lia.
    eapply repeatM_Forall; [| exact Hrun].
    intros g0 r g1' Hr. apply (Hone d g0 r g1'); lia || assumption.
  - unfold bind at 1, lift.
    destruct (parse_dice_expr expr rules) as [d | e] eqn:Hp; [| discriminate].
    destruct (parse_dice_expr_valid _ _ _ Hp) as [Hc Hs].
    unfold bind, ret.
    destruct (roll_dice d g) as [[r | e] g1] eqn:Hr; [| discriminate].
    intros [= <- <-]. split; [cbn; lia |].
    exists d. repeat split; try lia.
    constructor; [| constructor]. apply (Hone d g r g1); lia || assumption.
Qed.

End MultipleRolls.

(** The theorem at ["2 3d6+1"] under a bound of 10. *)
Lemma roll_multiple_dice_results_witness :
  exists rs g',
    roll_multiple_dice "2 3d6+1" 10 default_config
      ([1; 2; 3; 4; 5; 6] : tape) = (Ok rs, g')
    /\ 1 <= Z.of_nat (List.length rs) <= Z.max 1 10
    /\ exists d,
         1 <= d.(count) <= default_config.(dnd_max_dice_count)
         /\ 2 <= d.(sides) <= default_config.(dnd_max_dice_sides)
         /\ Forall (fun r =>
                      r.(dice_expr) = format_dice_expr d
                      /\ Z.of_nat (List.length r.(rolls)) = d.(count)
                      /\ Forall (fun v => 1 <= v <= d.(sides)) r.(rolls)
                      /\ r.(total) = sum r.(rolls) + d.(modifier)) rs.
Proof.
  destruct (roll_multiple_dice "2 3d6+1" 10 default_config
              ([1; 2; 3; 4; 5; 6] : tape)) as [[rs | e] g'] eqn:Hrun.
  - exists rs, g'. split; [reflexivity |].
    exact (roll_multiple_dice_results "2 3d6+1" 10 default_config
             ([1; 2; 3; 4; 5; 6] : tape) rs g' Hrun).
  - vm_compute in Hrun. discriminate Hrun.
Defined.

(* ================================================================== *)
(** ** Rendering and parsing an expression with its comparison *)

Lemma is_empty_app_r (a b : string) :
  is_empty b = false -> is_empty (a ++ b) = false.
Proof. destruct a; cbn; auto. Qed.

(** [rstrip] leaves a text alone whose end it leaves alone. *)
Lemma rstrip_app_keep (a b : string) :
  rstrip b = b -> is_empty b = false -> rstrip (a ++ b) = a ++ b.
Proof.
  intros Hb Hne. induction a as [| c a IH]; cbn; [exact Hb |].
  rewrite IH, (is_empty_app_r a b Hne), andb_false_r. reflexivity.
Qed.

(** The decimal text of a number that is not negative. *)
Lemma str_nonneg (v : Z) :
  0 <= v ->
  all_chars is_digit (str v) = true /\ is_empty (str v) = false
  /\ int_digits (str v) = v.
Proof.
  destruct v as [| p | p]; intros Hv; [| | lia].
  - repeat split.
  - rewrite str_pos.
    auto using digits_of_digits, digits_of_nonempty, int_digits_of.
Qed.

Lemma not_equals_sign (c : ascii) :
  is_space c = true \/ is_digit c = true -> Ascii.eqb "=" c = false.
Proof.
  intros Hc. destruct (Ascii.eqb_spec "="%char c) as [<- | _]; [| easy].
  destruct Hc; discriminate.
Qed.

(** Blanks, an operator, blanks and digits are matched as a comparison. *)
Lemma match_comparison_rendered (ws1 op ws2 V : string) :
  all_chars is_space ws1 = true -> is_operator op ->
  all_chars is_space ws2 = true ->
  all_chars is_digit V = true -> is_empty V = false ->
  match_comparison (ws1 ++ op ++ ws2 ++ V) = Some (op, V).
Proof.
  intros Hws1 Hop Hws2 HV HVne.
  assert (HheadV : not_headed is_space V = true).
  { destruct V as [| v0 V]; [discriminate |]. cbn in HV |- *.
    apply andb_true_iff in HV as [Hv0 _].
    now rewrite (is_digit_not_space v0 Hv0). }
  assert (Hspan2 : span is_space (ws2 ++ V) = (ws2, V))
    by now apply span_app.
  assert (Heq : drop_prefix "=" (ws2 ++ V) = None).
  { destruct ws2 as [| w ws2]; cbn [append drop_prefix].
    - destruct V as [| v0 V]; [discriminate |]. cbn in HV.
      apply andb_true_iff in HV as [Hv0 _].
      now rewrite not_equals_sign by auto.
    - cbn in Hws2. apply andb_true_iff in Hws2 as [Hw _].
      now rewrite not_equals_sign by auto. }
  assert (Hgo : forall o, match_operator o (o ++ ws2 ++ V) = Some (o, V)
                          \/ ~ is_operator o).
  { intros o.
    destruct (String.eqb_spec o ">=") as [-> | ?];
      [| destruct (String.eqb_spec o "<=") as [-> | ?];
         [| destruct (String.eqb_spec o ">") as [-> | ?];
            [| destruct (String.eqb_spec o "<") as [-> | ?]]]];
      try (left; unfold match_operator; cbn [append drop_prefix Ascii.eqb
                                              Bool.eqb];
           rewrite Hspan2, (span_all is_digit V HV), HVne; reflexivity).
    right. unfold is_operator. intuition congruence. }
  unfold match_comparison.
  assert (Hhead : not_headed is_space (op ++ ws2 ++ V) = true)
    by (destruct Hop as [-> | [-> | [-> | ->]]]; reflexivity).
  rewrite (span_app is_space ws1 _ Hws1 Hhead).
  destruct (Hgo op) as [Hm | Hno]; [| contradiction].
  destruct Hop as [-> | [-> | [-> | ->]]].
  - now rewrite Hm.
  - change (match_operator ">=" ("<=" ++ ws2 ++ V)) with (@None (string * string)).
    now rewrite Hm.
  - assert (H1 : match_operator ">=" (">" ++ ws2 ++ V) = None).
    { unfold match_operator.
      change (drop_prefix ">=" (">" ++ ws2 ++ V))
        with (drop_prefix "=" (ws2 ++ V)).
      now rewrite Heq. }
    rewrite H1.
    change (match_operator "<=" (">" ++ ws2 ++ V))
      with (@None (string * string)).
    now rewrite Hm.
  - assert (H2 : match_operator "<=" ("<" ++ ws2 ++ V) = None).
    { unfold match_operator.
      change (drop_prefix "<=" ("<" ++ ws2 ++ V))
        with (drop_prefix "=" (ws2 ++ V)).
      now rewrite Heq. }
    change (match_operator ">=" ("<" ++ ws2 ++ V))
      with (@None (string * string)).
    rewrite H2.
    change (match_operator ">" ("<" ++ ws2 ++ V))
      with (@None (string * string)).
    now rewrite Hm.
Qed.

Lemma lstrip_headed (s : string) :
  not_headed is_space s = true -> lstrip s = s.
Proof.
  destruct s as [| c s]; cbn; [reflexivity |].
  rewrite negb_true_iff. now intros ->.
Qed.

Lemma rstrip_cons_keep (c : ascii) (b : string) :
  rstrip b = b -> is_empty b = false -> rstrip (String c b) = String c b.
Proof. intros Hb Hne. cbn. now rewrite Hb, Hne, andb_false_r. Qed.

Lemma digits_headed (C rest : string) :
  all_chars is_digit C = true -> is_empty C = false ->
  not_headed is_space (C ++ rest) = true.
Proof.
  destruct C as [| c C]; [discriminate |]. cbn.
  rewrite andb_true_iff. intros [Hc _] _.
  now rewrite (is_digit_not_space c Hc).
Qed.

(** The pattern on [<count>d<sides>] followed by a comparison. *)
Lemma match_dice_pattern_plain_cmp (C S R op V : string) :
  all_chars is_digit C = true ->
  all_chars is_digit S = true -> is_empty S = false ->
  not_headed is_digit R = true -> match_modifier R = (None, R) ->
  match_comparison R = Some (op, V) ->
  match_dice_pattern (C ++ String "d" (S ++ R))
  = Some {| group1 := C; group2 := S; group3 := None;
            group4 := Some op; group5 := Some V |}.
Proof.
  intros HC HS HSne HR Hmod Hcmp. unfold match_dice_pattern.
  rewrite (span_app is_digit C (String "d" (S ++ R)) HC eq_refl).
  cbn [Ascii.eqb Bool.eqb].
  rewrite (span_app is_digit S R HS HR), HSne, Hmod, Hcmp. reflexivity.
Qed.

(** The pattern on [<count>d<sides><sign><digits>] followed by a
    comparison. *)
Lemma match_dice_pattern_signed_cmp (C S D R op V : string) (c : ascii) :
  all_chars is_digit C = true ->
  all_chars is_digit S = true -> is_empty S = false ->
  all_chars is_digit D = true -> is_empty D = false ->
  c = "+"%char \/ c = "-"%char ->
  not_headed is_digit R = true ->
  match_comparison R = Some (op, V) ->
  match_dice_pattern (C ++ String "d" (S ++ String c (D ++ R)))
  = Some {| group1 := C; group2 := S; group3 := Some (String c D);
            group4 := Some op; group5 := Some V |}.
Proof.
  intros HC HS HSne HD HDne Hc HR Hcmp. unfold match_dice_pattern.
  rewrite (span_app is_digit C
             (String "d" (S ++ String c (D ++ R))) HC eq_refl).
  cbn [Ascii.eqb Bool.eqb].
  assert (Hhead : not_headed is_digit (String c (D ++ R)) = true)
    by (destruct Hc as [-> | ->]; reflexivity).
  rewrite (span_app is_digit S _ HS Hhead), HSne.
  assert (Hmod : match_modifier (String c (D ++ R))
                 = (Some (String c D), R)).
  { unfold match_modifier. rewrite (span_app is_digit D R HD HR), HDne.
    destruct Hc as [-> | ->]; reflexivity. }
  rewrite Hmod, Hcmp. reflexivity.
Qed.

(** The text of a comparison is no modifier and no digit. *)
Lemma comparison_text_head (ws1 op rest : string) :
  all_chars is_space ws1 = true -> is_operator op ->
  not_headed is_digit (ws1 ++ op ++ rest) = true
  /\ match_modifier (ws1 ++ op ++ rest) = (None, ws1 ++ op ++ rest).
Proof.
  intros Hws Hop. destruct ws1 as [| w ws1].
  - destruct Hop as [-> | [-> | [-> | ->]]]; split; reflexivity.
  - cbn in Hws. apply andb_true_iff in Hws as [Hw _].
    assert (Hd : is_digit w = false).
    { destruct (is_digit w) eqn:Hd; [| reflexivity].
      apply is_digit_not_space in Hd. congruence. }
    split; [cbn; now rewrite Hd |].
    cbn [append match_modifier].
    destruct (Ascii.eqb_spec w "+") as [-> | _]; [discriminate |].
    destruct (Ascii.eqb_spec w "-") as [-> | _]; [discriminate |].
    reflexivity.
Qed.

(** Rendering a specification, then blanks, an operator, blanks and a
    threshold that is not negative, gives a text that parses back to the
    specification with that comparison: the round trip of an expression
    with its comparison, whatever blanks surround the operator. *)
Theorem parse_rendering_with_comparison (d : DiceRoll) (config : GuildConfig)
    (ws1 op ws2 : string) (threshold : Z) :
  1 <= d.(count) <= config.(dnd_max_dice_count) ->
  2 <= d.(sides) <= config.(dnd_max_dice_sides) ->
  all_chars is_space ws1 = true -> all_chars is_space ws2 = true ->
  is_operator op -> 0 <= threshold ->
  parse_dice_expr
    (format_dice_expr d ++ ws1 ++ op ++ ws2 ++ str threshold) config
  = Ok {| count := d.(count); sides := d.(sides); modifier := d.(modifier);
          comparison := Some (op, threshold) |}.
Proof.
  destruct d as [c s m cmp]. cbn [count sides modifier].
  intros Hc Hs Hws1 Hws2 Hop Hth.
  destruct c as [| pc | pc]; try lia.
  destruct s as [| ps | ps]; try lia.
  destruct (str_nonneg threshold Hth) as (HV & HVne & HVint).
  set (V := str threshold) in *.
  set (R := ws1 ++ op ++ ws2 ++ V).
  pose proof (match_comparison_rendered ws1 op ws2 V Hws1 Hop Hws2 HV HVne)
    as Hcmp.
  destruct (comparison_text_head ws1 op (ws2 ++ V) Hws1 Hop) as [HR Hmod].
  fold R in Hcmp, HR, Hmod.
  assert (HRkeep : rstrip R = R /\ is_empty R = false).
  { assert (HVkeep : rstrip V = V)
      by now apply rstrip_no_space, digits_no_space.
    assert (H2 : rstrip (ws2 ++ V) = ws2 ++ V /\ is_empty (ws2 ++ V) = false)
      by (split; [now apply rstrip_app_keep | now apply is_empty_app_r]).
    assert (H3 : rstrip (op ++ ws2 ++ V) = op ++ ws2 ++ V
                 /\ is_empty (op ++ ws2 ++ V) = false)
      by (split; [now apply rstrip_app_keep | now apply is_empty_app_r]).
    split; [now apply rstrip_app_keep | now apply is_empty_app_r]. }
  destruct HRkeep as [HRkeep HRne].
  assert (Hcount : (Z.pos pc =? 0) = false) by reflexivity.
  assert (Hcmax : (dnd_max_dice_count config <? Z.pos pc) = false)
    by (apply Z.ltb_ge; lia).
  assert (Hsides : (Z.pos ps <? 2) = false) by (apply Z.ltb_ge; lia).
  assert (Hsmax : (dnd_max_dice_sides config <? Z.pos ps) = false)
    by (apply Z.ltb_ge; lia).
  assert (Hopne : is_empty op = false)
    by (destruct Hop as [-> | [-> | [-> | ->]]]; reflexivity).
  pose proof (digits_of_digits pc) as HC.
  pose proof (digits_of_nonempty pc) as HCne.
  pose proof (digits_of_digits ps) as HS.
  pose proof (digits_of_nonempty ps) as HSne.
  unfold parse_dice_expr. rewrite format_dice_expr_shape.
  destruct m as [| pm | pm].
  - replace ((digits_of pc ++ String "d" (digits_of ps)) ++ R)
      with (digits_of pc ++ String "d" (digits_of ps ++ R))
      by (now rewrite append_assoc).
    assert (Hstrip : strip (digits_of pc ++ String "d" (digits_of ps ++ R))
                     = digits_of pc ++ String "d" (digits_of ps ++ R)).
    { unfold strip. rewrite lstrip_headed by now apply digits_headed.
      apply rstrip_app_keep; [| reflexivity].
      apply rstrip_cons_keep;
        [now apply rstrip_app_keep | now apply is_empty_app_r]. }
    rewrite Hstrip, (match_dice_pattern_plain_cmp _ _ R op V) by assumption.
    cbn [group1 group2 group3 group4 group5].
    rewrite HCne, !int_digits_of, Hcount, Hcmax, Hsides, Hsmax, Hopne, HVne.
    cbn [negb andb]. now rewrite HVint.
  - pose proof (digits_of_digits pm) as HD.
    pose proof (digits_of_nonempty pm) as HDne.
    replace ((digits_of pc
                ++ String "d" (digits_of ps ++ String "+" (digits_of pm)))
               ++ R)
      with (digits_of pc
              ++ String "d" (digits_of ps ++ String "+" (digits_of pm ++ R)))
      by (rewrite append_assoc; cbn; now rewrite append_assoc).
    assert (Hstrip :
      strip (digits_of pc
               ++ String "d" (digits_of ps ++ String "+" (digits_of pm ++ R)))
      = digits_of pc
          ++ String "d" (digits_of ps ++ String "+" (digits_of pm ++ R))).
    { unfold strip. rewrite lstrip_headed by now apply digits_headed.
      apply rstrip_app_keep; [| reflexivity].
      apply rstrip_cons_keep; [| now apply is_empty_app_r].
      apply rstrip_app_keep; [| reflexivity].
      apply rstrip_cons_keep;
        [now apply rstrip_app_keep | now apply is_empty_app_r]. }
    rewrite Hstrip, (match_dice_pattern_signed_cmp _ _ _ R op V) by auto.
    cbn [group1 group2 group3 group4 group5].
    rewrite HCne, !int_digits_of, Hcount, Hcmax, Hsides, Hsmax, Hopne, HVne.
    cbn [negb andb int_signed Ascii.eqb Bool.eqb].
    now rewrite HVint, int_digits_of.
  - pose proof (digits_of_digits pm) as HD.
    pose proof (digits_of_nonempty pm) as HDne.
    replace ((digits_of pc
                ++ String "d" (digits_of ps ++ String "-" (digits_of pm)))
               ++ R)
      with (digits_of pc
              ++ String "d" (digits_of ps ++ String "-" (digits_of pm ++ R)))
      by (rewrite append_assoc; cbn; now rewrite append_assoc).
    assert (Hstrip :
      strip (digits_of pc
               ++ String "d" (digits_of ps ++ String "-" (digits_of pm ++ R)))
      = digits_of pc
          ++ String "d" (digits_of ps ++ String "-" (digits_of pm ++ R))).
    { unfold strip. rewrite lstrip_headed by now apply digits_headed.
      apply rstrip_app_keep; [| reflexivity].
      apply rstrip_cons_keep; [| now apply is_empty_app_r].
      apply rstrip_app_keep; [| reflexivity].
      apply rstrip_cons_keep;
        [now apply rstrip_app_keep | now apply is_empty_app_r]. }
    rewrite Hstrip, (match_dice_pattern_signed_cmp _ _ _ R op V) by auto.
    cbn [group1 group2 group3 group4 group5].
    rewrite HCne, !int_digits_of, Hcount, Hcmax, Hsides, Hsmax, Hopne, HVne.
    cbn [negb andb int_signed Ascii.eqb Bool.eqb].
    now rewrite HVint, int_digits_of.
Qed.

(** The theorem at [2d20+3], a blank, [>=], no blank, and 15. *)
Lemma parse_rendering_with_comparison_witness :
  let d := {| count := 2; sides := 20; modifier := 3; comparison := None |} in
  format_dice_expr d ++ " " ++ ">=" ++ "" ++ str 15 = "2d20+3 >=15"
  /\ parse_dice_expr
       (format_dice_expr d ++ " " ++ ">=" ++ "" ++ str 15) default_config
     = Ok {| count := 2; sides := 20; modifier := 3;
             comparison := Some (">=", 15) |}.
Proof.
  cbv zeta. split; [reflexivity |].
  apply (parse_rendering_with_comparison
           {| count := 2; sides := 20; modifier := 3; comparison := None |}
           default_config " " ">=" "" 15);
    try reflexivity; try (cbn; lia).
  unfold is_operator. auto.
Defined.

(* ================================================================== *)
(** ** The rendered expression names its dice *)

(** Parsing the rendering of a specification with positive count and
    sides within the caps. *)
Lemma parse_format_positive (pc ps : positive) (m : Z)
    (cmp : option (string * Z)) (config : GuildConfig) :
  Z.pos pc <= config.(dnd_max_dice_count) ->
  2 <= Z.pos ps <= config.(dnd_max_dice_sides) ->
  parse_dice_expr
    (format_dice_expr {| count := Z.pos pc; sides := Z.pos ps;
                         modifier := m; comparison := cmp |}) config
  = Ok {| count := Z.pos pc; sides := Z.pos ps; modifier := m;
          comparison := None |}.
Proof.
  intros Hc Hs. unfold parse_dice_expr.
  rewrite (strip_no_space _ (format_dice_expr_no_space pc ps m cmp)).
  rewrite format_dice_expr_shape.
  assert (Hcount : (Z.pos pc =? 0) = false) by reflexivity.
  assert (Hcmax : (dnd_max_dice_count config <? Z.pos pc) = false)
    by (apply Z.ltb_ge; lia).
  assert (Hsides : (Z.pos ps <? 2) = false) by (apply Z.ltb_ge; lia).
  assert (Hsmax : (dnd_max_dice_sides config <? Z.pos ps) = false)
    by (apply Z.ltb_ge; lia).
  destruct m as [| pm | pm];
    [rewrite match_dice_pattern_plain
       by auto using digits_of_digits, digits_of_nonempty
    | rewrite match_dice_pattern_signed
        by auto using digits_of_digits, digits_of_nonempty ..];
    cbn [group1 group2 group3 group4 group5];
    rewrite digits_of_nonempty, !int_digits_of, Hcount, Hcmax, Hsides, Hsmax;
    cbn [int_signed Ascii.eqb Bool.eqb]; rewrite ?int_digits_of;
    reflexivity.
Qed.

(** Two specifications with at least one die of at least two sides that
    render to the same text have the same count, sides and modifier: the
    expression shown in an outcome identifies the dice that were rolled. *)
Theorem format_dice_expr_injective (d1 d2 : DiceRoll) :
  1 <= d1.(count) -> 2 <= d1.(sides) ->
  1 <= d2.(count) -> 2 <= d2.(sides) ->
  format_dice_expr d1 = format_dice_expr d2 ->
  d1.(count) = d2.(count) /\ d1.(sides) = d2.(sides)
  /\ d1.(modifier) = d2.(modifier).
Proof.
  destruct d1 as [c1 s1 m1 cmp1], d2 as [c2 s2 m2 cmp2].
  cbn [count sides modifier]. intros Hc1 Hs1 Hc2 Hs2 Heq.
  destruct c1 as [| pc1 | pc1]; try lia.
  destruct s1 as [| ps1 | ps1]; try lia.
  destruct c2 as [| pc2 | pc2]; try lia.
  destruct s2 as [| ps2 | ps2]; try lia.
  set (config := {| dnd_critical_success := 20; dnd_critical_fail := 1;
                    dnd_max_dice_count := Z.max (Z.pos pc1) (Z.pos pc2);
                    dnd_max_dice_sides := Z.max (Z.pos ps1) (Z.pos ps2);
                    coc_critical_success := 1; coc_critical_fail := 100;
                    coc_skill_divisor_hard := 2;
                    coc_skill_divisor_extreme := 5 |}).
  pose proof (parse_format_positive pc1 ps1 m1 cmp1 config
                ltac:(cbn; lia) ltac:(cbn; lia)) as H1.
  pose proof (parse_format_positive pc2 ps2 m2 cmp2 config
                ltac:(cbn; lia) ltac:(cbn; lia)) as H2.
  rewrite Heq, H2 in H1. injection H1 as -> -> ->. repeat split.
Qed.

(** The theorem at [2d6+1] with and without a comparison. *)
Lemma format_dice_expr_injective_witness :
  let d1 := {| count := 2; sides := 6; modifier := 1; comparison := None |} in
  let d2 := {| count := 2; sides := 6; modifier := 1;
               comparison := Some (">", 4) |} in
  format_dice_expr d1 = format_dice_expr d2
  /\ d1.(count) = d2.(count) /\ d1.(sides) = d2.(sides)
  /\ d1.(modifier) = d2.(modifier).
Proof.
  cbv zeta. split; [reflexivity |].
  apply (format_dice_expr_injective
           {| count := 2; sides := 6; modifier := 1; comparison := None |}
           {| count := 2; sides := 6; modifier := 1;
              comparison := Some (">", 4) |});
    try reflexivity; cbn; lia.
Defined.

(* ================================================================== *)
(** ** Levels, flags and labels of the CoC resolver *)

(** The values [determine_success_level] can return, by the rule that
    returned them. *)
Lemma determine_success_level_values
    (roll skill_value : Z) (rules : GuildConfig) (level : Z) :
  determine_success_level roll skill_value rules = Ok level ->
  ((roll =? rules.(coc_critical_success)) = true /\ level = 1)
  \/ ((roll =? rules.(coc_critical_success)) = false
      /\ is_critical_failure roll skill_value rules = true /\ level = 6)
  \/ ((roll =? rules.(coc_critical_success)) = false
      /\ is_critical_failure roll skill_value rules = false
      /\ 2 <= level <= 5).
Proof.
  unfold determine_success_level.
  destruct (roll =? coc_critical_success rules); [intros [= <-]; auto |].
  destruct (is_critical_failure roll skill_value rules);
    [intros [= <-]; auto |].
  destruct (truediv skill_value _) as [qh | e]; [| discriminate].
  destruct (truediv skill_value _) as [qe | e]; [| discriminate].
  cbn [bindR]. intros Hlevel. right; right.
  destruct (_ || _); [injection Hlevel as <-; repeat split; lia |].
  destruct (int_le_float roll qh);
    [injection Hlevel as <-; repeat split; lia |].
  destruct (roll <=? skill_value); injection Hlevel as <-;
    repeat split; lia.
Qed.

Lemma div_le_self (s d : Z) : 0 <= s -> 0 < d -> s / d <= s.
Proof. intros Hs Hd. apply Z.div_le_upper_bound; nia. Qed.

(** For a roll and a skill of [[1, 100]] and positive divisors, the level
    is a success (at most 4) exactly when the roll is the critical-success
    value, or passes no critical-failure test and is 100 or at most the
    skill.  So a roll of 100 that is no critical failure succeeds, whatever
    the skill. *)
Theorem determine_success_level_success
    (roll skill_value : Z) (rules : GuildConfig) :
  1 <= roll <= 100 ->
  1 <= skill_value <= 100 ->
  0 < rules.(coc_skill_divisor_hard) ->
  0 < rules.(coc_skill_divisor_extreme) ->
  exists level,
    determine_success_level roll skill_value rules = Ok level
    /\ 1 <= level <= 6
    /\ (level <= 4 <->
        roll = rules.(coc_critical_success)
        \/ (is_critical_failure roll skill_value rules = false
            /\ (roll = 100 \/ roll <= skill_value))).
Proof.
  intros Hroll Hskill Hhard Hextreme.
  rewrite (determine_success_level_classify _ _ _ Hroll Hskill Hhard Hextreme).
  eexists. split; [reflexivity |].
  unfold ClassifyCoc.
  change (critical_failure_test roll skill_value rules)
    with (is_critical_failure roll skill_value rules).
  pose proof (div_le_self skill_value _ ltac:(lia) Hhard).
  pose proof (div_le_self skill_value _ ltac:(lia) Hextreme).
  destruct (Z.eqb_spec roll (coc_critical_success rules)).
  { cbn. split; [lia |]. split; [auto | lia]. }
  destruct (is_critical_failure roll skill_value rules).
  { cbn. split; [lia |]. split; [lia |]. intros [? | [? _]]; easy. }
  destruct (Z.eqb_spec roll 100); cbn [orb].
  { cbn. split; [lia |]. split; [auto | lia]. }
  destruct (Z.leb_spec roll (skill_value / coc_skill_divisor_extreme rules)).
  { cbn. split; [lia |]. split; [intros _; right; split; [easy | lia] | lia]. }
  destruct (Z.leb_spec roll (skill_value / coc_skill_divisor_hard rules)).
  { cbn. split; [lia |]. split; [intros _; right; split; [easy | lia] | lia]. }
  destruct (Z.leb_spec roll skill_value); cbn.
  - split; [lia |]. split; [intros _; right; split; [easy | lia] | lia].
  - split; [lia |]. split; [lia |]. intros [? | [_ [? | ?]]]; lia.
Qed.

(** The theorem at the roll 100 against the skill 60 when the
    critical-fail value is 99: an extreme success. *)
Lemma determine_success_level_success_witness :
  let rules := {| dnd_critical_success := 20; dnd_critical_fail := 1;
                  dnd_max_dice_count := 50; dnd_max_dice_sides := 1000;
                  coc_critical_success := 1; coc_critical_fail := 99;
                  coc_skill_divisor_hard := 2;
                  coc_skill_divisor_extreme := 5 |} in
  determine_success_level 100 60 rules = Ok 2
  /\ exists level,
       determine_success_level 100 60 rules = Ok level
       /\ 1 <= level <= 6
       /\ (level <= 4 <->
           100 = rules.(coc_critical_success)
           \/ (is_critical_failure 100 60 rules = false
               /\ (100 = 100 \/ 100 <= 60))).
Proof.
  cbv zeta. split; [reflexivity |].
  apply (determine_success_level_success 100 60
           {| dnd_critical_success := 20; dnd_critical_fail := 1;
              dnd_max_dice_count := 50; dnd_max_dice_sides := 1000;
              coc_critical_success := 1; coc_critical_fail := 99;
              coc_skill_divisor_hard := 2;
              coc_skill_divisor_extreme := 5 |}); cbn; lia.
Defined.

(** A divisor of zero in the configuration: for a skill of [[1, 100]] and
    divisors that are not negative, one of them zero, the classification
    returns 1 or 6 when one of its first two rules matches, and raises
    [ZeroDivisionError] on every other roll. *)
Theorem determine_success_level_zero_divisor
    (roll skill_value : Z) (rules : GuildConfig) :
  1 <= skill_value <= 100 ->
  0 <= rules.(coc_skill_divisor_hard) ->
  0 <= rules.(coc_skill_divisor_extreme) ->
  rules.(coc_skill_divisor_hard) = 0
  \/ rules.(coc_skill_divisor_extreme) = 0 ->
  determine_success_level roll skill_value rules
  = if roll =? rules.(coc_critical_success) then Ok 1
    else if is_critical_failure roll skill_value rules then Ok 6
    else Raise (ZeroDivisionError "division by zero").
Proof.
  intros Hskill Hhard Hextreme Hzero. unfold determine_success_level.
  destruct (roll =? coc_critical_success rules); [reflexivity |].
  destruct (is_critical_failure roll skill_value rules); [reflexivity |].
  destruct (Z.eq_dec (coc_skill_divisor_hard rules) 0) as [-> | Hnz].
  - reflexivity.
  - destruct (truediv_percent skill_value (coc_skill_divisor_hard rules)
                Hskill ltac:(lia)) as (qh & -> & _).
    destruct Hzero as [? | ->]; [contradiction | reflexivity].
Qed.

(** The theorem at an extreme divisor of zero and the roll 30 against the
    skill 50. *)
Lemma determine_success_level_zero_divisor_witness :
  let rules := {| dnd_critical_success := 20; dnd_critical_fail := 1;
                  dnd_max_dice_count := 50; dnd_max_dice_sides := 1000;
                  coc_critical_success := 1; coc_critical_fail := 100;
                  coc_skill_divisor_hard := 2;
                  coc_skill_divisor_extreme := 0 |} in
  determine_success_level 30 50 rules
  = Raise (ZeroDivisionError "division by zero").
Proof.
  cbv zeta.
  exact (determine_success_level_zero_divisor 30 50
           {| dnd_critical_success := 20; dnd_critical_fail := 1;
              dnd_max_dice_count := 50; dnd_max_dice_sides := 1000;
              coc_critical_success := 1; coc_critical_fail := 100;
              coc_skill_divisor_hard := 2;
              coc_skill_divisor_extreme := 0 |}
           ltac:(lia) ltac:(cbn; lia) ltac:(cbn; lia)
           (or_intror eq_refl)).
Defined.

Section ResolverOutcome.
Context {G : Type} `{RandomSource G}.

(** The outcome of a resolution agrees with the level of its roll: the
    comparison result is always a truth value, true exactly for the levels
    1 to 4; the critical-success flag is set exactly at level 1; and the
    level is 6 exactly when the critical-failure flag is set and the
    critical-success flag is not (a roll that is both the critical-success
    value and a critical failure is level 1 with both flags set). *)
Theorem roll_coc_flags_and_level (skill_value : Z) (rules : GuildConfig)
    (g : G) (r : RollResult) (g' : G) :
  roll_coc skill_value rules g = (Ok r, g') ->
  exists level,
    determine_success_level r.(total) skill_value rules = Ok level
    /\ 1 <= level <= 6
    /\ r.(comparison_result) = Some (level <=? 4)
    /\ (r.(is_critical_success) = true <-> level = 1)
    /\ (level = 6 <->
        r.(is_critical_fail) = true /\ r.(is_critical_success) = false).
Proof.
  unfold roll_coc, bind, lift, ret.
  destruct (randint 1 100 g) as [[roll | e] g1]; [| discriminate].
  destruct (determine_success_level roll skill_value rules) as [level | e]
    eqn:Hlevel; [| discriminate].
  intros [= <- <-]. cbn [total comparison_result is_critical_success
                           is_critical_fail].
  exists level. split; [exact Hlevel |].
  destruct (determine_success_level_values _ _ _ _ Hlevel)
    as [[-> ->] | [(-> & -> & ->) | (-> & -> & Hmid)]].
  all: repeat split; try lia; try easy;
    try (intros [? ?]; discriminate); try (intros ?; lia).
Qed.

End ResolverOutcome.

(** The theorem at the skill 40 on the scripted source that rolls 97. *)
Lemma roll_coc_flags_and_level_witness :
  exists r g',
    roll_coc 40 default_config ([97] : tape) = (Ok r, g')
    /\ exists level,
         determine_success_level r.(total) 40 default_config = Ok level
         /\ 1 <= level <= 6
         /\ r.(comparison_result) = Some (level <=? 4)
         /\ (r.(is_critical_success) = true <-> level = 1)
         /\ (level = 6 <->
             r.(is_critical_fail) = true /\ r.(is_critical_success) = false).
Proof.
  destruct (roll_coc 40 default_config ([97] : tape)) as [[r | e] g']
    eqn:Hrun.
  - exists r, g'. split; [reflexivity |].
    exact (roll_coc_flags_and_level 40 default_config ([97] : tape) r g'
             Hrun).
  - vm_compute in Hrun. discriminate Hrun.
Defined.

(** A level outside 1 to 6 has the label of the unknown level, a level the
    classification returns never has it, and no other of the six levels
    shares its label. *)
Theorem classified_level_is_labelled
    (roll skill_value : Z) (rules : GuildConfig) (level : Z) :
  determine_success_level roll skill_value rules = Ok level ->
  format_success_level level <> "未知 (Unknown)"
  /\ (forall other, format_success_level other = "未知 (Unknown)"
                    <-> ~ 1 <= other <= 6)
  /\ (forall other, 1 <= other <= 6 ->
        format_success_level other = format_success_level level ->
        other = level).
Proof.
  intros Hlevel.
  assert (Hrange : 1 <= level <= 6).
  { destruct (determine_success_level_values _ _ _ _ Hlevel)
      as [[_ ->] | [(_ & _ & ->) | (_ & _ & ?)]]; lia. }
  assert (Hsix : forall l, 1 <= l <= 6 ->
            l = 1 \/ l = 2 \/ l = 3 \/ l = 4 \/ l = 5 \/ l = 6) by (intros; lia).
  assert (Hunknown : forall other,
            format_success_level other = "未知 (Unknown)"
            <-> ~ 1 <= other <= 6).
  { intros other. split.
    - intros Hlabel Hin.
      destruct (Hsix other Hin) as [-> | [-> | [-> | [-> | [-> | ->]]]]];
        discriminate Hlabel.
    - intros Hout. unfold format_success_level.
      repeat match goal with
             | |- context [?a =? ?b] =>
                 destruct (Z.eqb_spec a b); [lia |]
             end.
      reflexivity. }
  split; [| split; [exact Hunknown |]].
  - intros Hlabel. now apply Hunknown in Hlabel.
  - intros other Hother.
    destruct (Hsix other Hother) as [-> | [-> | [-> | [-> | [-> | ->]]]]];
      destruct (Hsix level Hrange) as [-> | [-> | [-> | [-> | [-> | ->]]]]];
      intros Hlabel; try reflexivity; discriminate Hlabel.
Qed.

(** The theorem at the roll 10 against the skill 50. *)
Lemma classified_level_is_labelled_witness :
  determine_success_level 10 50 default_config = Ok 2
  /\ format_success_level 2 <> "未知 (Unknown)"
  /\ (forall other, format_success_level other = "未知 (Unknown)"
                    <-> ~ 1 <= other <= 6)
  /\ (forall other, 1 <= other <= 6 ->
        format_success_level other = format_success_level 2 -> other = 2).
Proof.
  split; [reflexivity |].
  exact (classified_level_is_labelled 10 50 default_config 2 eq_refl).
Defined.

(* ================================================================== *)
(** ** Rendering the outcomes of the CoC resolver *)

(** The classification reads the four CoC fields of the configuration
    only. *)
Lemma determine_success_level_fields
    (roll skill_value : Z) (rules rules' : GuildConfig) :
  rules.(coc_critical_success) = rules'.(coc_critical_success) ->
  rules.(coc_critical_fail) = rules'.(coc_critical_fail) ->
  rules.(coc_skill_divisor_hard) = rules'.(coc_skill_divisor_hard) ->
  rules.(coc_skill_divisor_extreme) = rules'.(coc_skill_divisor_extreme) ->
  determine_success_level roll skill_value rules
  = determine_success_level roll skill_value rules'.
Proof.
  intros Hs Hf Hh He.
  unfold determine_success_level, is_critical_failure.
  now rewrite Hs, Hf, Hh, He.
Qed.

Section RenderedOutcomes.
Context {G : Type} `{RandomSource G}.

Lemma roll_coc_inv (skill_value : Z) (rules : GuildConfig)
    (g : G) (r : RollResult) (g' : G) :
  roll_coc skill_value rules g = (Ok r, g') ->
  r.(rolls) = [r.(total)] /\ 1 <= r.(total) <= 100
  /\ exists level,
       determine_success_level r.(total) skill_value rules = Ok level
       /\ r.(comparison_result) = Some (level <=? 4).
Proof.
  intros Hrun.
  destruct (roll_coc_percentile _ _ _ _ _ Hrun) as (Hrolls & Hrange & _).
  split; [exact Hrolls |]. split; [exact Hrange |].
  unfold roll_coc, bind, lift, ret in Hrun.
  destruct (randint 1 100 g) as [[roll | e] g1]; [| discriminate].
  destruct (determine_success_level roll skill_value rules) as [level | e]
    eqn:Hlevel; [| discriminate].
  injection Hrun as <- <-. now exists level.
Qed.

(** Rendering an outcome of [roll_coc] for a skill of [[1, 100]] never
    fails, shows the roll, and names the tier the roll has under the default
    configuration, whatever rules resolved it; the marker after the tier
    follows the flags of the outcome, which follow those rules.  The tier
    named agrees with the success flag of the outcome when the rules have
    the default CoC fields. *)
Theorem format_coc_result_of_outcome (skill_value : Z)
    (rules : GuildConfig) (g : G) (r : RollResult) (g' : G) :
  1 <= skill_value <= 100 ->
  roll_coc skill_value rules g = (Ok r, g') ->
  let tier := ClassifyCoc r.(total) skill_value default_config in
  format_coc_result r skill_value
  = Text ("技能值: " ++ str skill_value ++ nl
          ++ "骰子結果: " ++ str r.(total) ++ nl
          ++ "判定結果: " ++ format_success_level (level_of_tier tier)
          ++ (if r.(is_critical_success) then " ✨ 大成功!"
              else if r.(is_critical_fail) then " 💥 大失敗!"
              else ""))
  /\ (rules.(coc_critical_success) = 1 ->
      rules.(coc_critical_fail) = 100 ->
      rules.(coc_skill_divisor_hard) = 2 ->
      rules.(coc_skill_divisor_extreme) = 5 ->
      r.(comparison_result) = Some (level_of_tier tier <=? 4)).
Proof.
  intros Hskill Hrun. cbv zeta.
  destruct (roll_coc_inv _ _ _ _ _ Hrun)
    as (Hrolls & Hrange & level & Hlevel & Hcmp).
  pose proof (determine_success_level_classify r.(total) skill_value
                default_config Hrange Hskill ltac:(cbn; lia)
                ltac:(cbn; lia)) as Hdefault.
  split.
  - unfold format_coc_result. now rewrite Hdefault, Hrolls.
  - intros Hs Hf Hh He.
    rewrite (determine_success_level_fields _ _ rules default_config
               Hs Hf Hh He), Hdefault in Hlevel.
    injection Hlevel as <-. exact Hcmp.
Qed.

Lemma format_coc_line_of_outcome (i skill_value : Z) (r : RollResult) :
  1 <= skill_value <= 100 ->
  r.(rolls) = [r.(total)] -> 1 <= r.(total) <= 100 ->
  exists line, format_coc_line i r skill_value = Text line.
Proof.
  intros Hskill Hrolls Hrange. unfold format_coc_line.
  rewrite (determine_success_level_classify r.(total) skill_value
             default_config Hrange Hskill ltac:(cbn; lia) ltac:(cbn; lia)).
  rewrite Hrolls. eauto.
Qed.

Lemma format_coc_fold (skill_value : Z) (items : list (Z * RollResult))
    (message : string) :
  Forall (fun item =>
            exists line,
              format_coc_line (fst item) (snd item) skill_value = Text line)
         items ->
  exists text,
    fold_left
      (fun message '(i, result) =>
         match message with
         | Fails e => Fails e
         | Text message =>
             match format_coc_line i result skill_value with
             | Fails e => Fails e
             | Text line => Text (message ++ line)
             end
         end)
      items (Text message)
    = Text text.
Proof.
  intros Hitems. revert message.
  induction Hitems as [| [i r] items (line & Hline) _ IH]; intros message.
  - now exists message.
  - cbn [fold_left]. cbn [fst snd] in Hline. rewrite Hline. apply IH.
Qed.

Lemma Forall_enumerate {A : Type} (P : Z * A -> Prop) (l : list A) :
  Forall (fun x => forall i, P (i, x)) l -> Forall P (enumerate l).
Proof.
  unfold enumerate. generalize (map Z.of_nat (seq 0 (List.length l))).
  intros idx Hl. revert idx.
  induction Hl as [| x l Hx _ IH]; intros [| i idx]; cbn; constructor; auto.
Qed.

(** Rendering the list of a multiple resolution for a skill of [[1, 100]]
    never fails: every outcome of [roll_coc_multi] holds the one roll that
    the rendering reads, within the range the classification accepts. *)
Theorem format_coc_multi_results_of_outcomes (skill_value times : Z)
    (rules : GuildConfig) (g : G) (rs : list RollResult) (g' : G) :
  1 <= skill_value <= 100 ->
  roll_coc_multi skill_value times rules g = (Ok rs, g') ->
  exists text, format_coc_multi_results rs skill_value = Text text.
Proof.
  intros Hskill Hrun. unfold roll_coc_multi in Hrun.
  assert (Hall : Forall (fun r => r.(rolls) = [r.(total)]
                                  /\ 1 <= r.(total) <= 100) rs).
  { eapply repeatM_Forall; [| exact Hrun].
    intros g0 r g1 Hr.
    destruct (roll_coc_percentile _ _ _ _ _ Hr) as (? & ? & _). now split. }
  unfold format_coc_multi_results. apply format_coc_fold.
  apply Forall_enumerate.
  eapply Forall_impl; [| exact Hall].
  intros r [Hrolls Hrange] i. cbn [fst snd].
  now apply format_coc_line_of_outcome.
Qed.

End RenderedOutcomes.

(** The theorem at the skill 50 resolved under a critical-success value of
    5: the roll 5 is rendered as an extreme success with the marker of a
    critical success. *)
Lemma format_coc_result_of_outcome_witness :
  let rules := {| dnd_critical_success := 20; dnd_critical_fail := 1;
                  dnd_max_dice_count := 50; dnd_max_dice_sides := 1000;
                  coc_critical_success := 5; coc_critical_fail := 100;
                  coc_skill_divisor_hard := 2;
                  coc_skill_divisor_extreme := 5 |} in
  exists r g',
    roll_coc 50 rules ([5] : tape) = (Ok r, g')
    /\ format_coc_result r 50
       = Text ("技能值: 50" ++ nl ++ "骰子結果: 5" ++ nl
               ++ "判定結果: 極限成功 (Extreme Success) ✨ 大成功!").
Proof.
  cbv zeta.
  destruct (roll_coc 50
              {| dnd_critical_success := 20; dnd_critical_fail := 1;
                 dnd_max_dice_count := 50; dnd_max_dice_sides := 1000;
                 coc_critical_success := 5; coc_critical_fail := 100;
                 coc_skill_divisor_hard := 2;
                 coc_skill_divisor_extreme := 5 |} ([5] : tape))
    as [[r | e] g'] eqn:Hrun.
  - exists r, g'. split; [reflexivity |].
    pose proof (format_coc_result_of_outcome 50 _ _ r g'
                  ltac:(lia) Hrun) as [Htext _].
    vm_compute in Hrun. injection Hrun as <- _.
    exact Htext.
  - vm_compute in Hrun. discriminate Hrun.
Defined.

(** The theorem at the skill 50 resolved three times. *)
Lemma format_coc_multi_results_of_outcomes_witness :
  exists rs g' text,
    roll_coc_multi 50 3 default_config ([20; 1; 100] : tape) = (Ok rs, g')
    /\ format_coc_multi_results rs 50 = Text text.
Proof.
  destruct (roll_coc_multi 50 3 default_config ([20; 1; 100] : tape))
    as [[rs | e] g'] eqn:Hrun.
  - destruct (format_coc_multi_results_of_outcomes 50 3 default_config
                ([20; 1; 100] : tape) rs g' ltac:(lia) Hrun) as (text & Ht).
    exists rs, g', text. split; [reflexivity | exact Ht].
  - vm_compute in Hrun. discriminate Hrun.
Defined.

(* ================================================================== *)
(** ** The configuration manager *)

Lemma contains_In (x : Z) (l : list Z) : contains x l = true <-> In x l.
Proof.
  unfold contains. rewrite existsb_exists. split.
  - intros (y & Hin & Hy). apply Z.eqb_eq in Hy. now subst y.
  - intros Hin. exists x. split; [exact Hin | apply Z.eqb_refl].
Qed.

Lemma contains_app (x : Z) (l l' : list Z) :
  contains x (l ++ l')%list = contains x l || contains x l'.
Proof. unfold contains. apply existsb_app. Qed.

Lemma dict_get_set_same (k : Z) (v : GuildSettings) (d : guild_dict) :
  dict_get k (dict_set k v d) = Some v.
Proof.
  induction d as [| [k' v'] d IH]; cbn.
  - now rewrite Z.eqb_refl.
  - destruct (Z.eqb_spec k' k) as [-> | Hne]; cbn.
    + now rewrite Z.eqb_refl.
    + destruct (Z.eqb_spec k' k); [contradiction | exact IH].
Qed.

Lemma dict_get_set_other (k k0 : Z) (v : GuildSettings) (d : guild_dict) :
  k0 <> k -> dict_get k0 (dict_set k v d) = dict_get k0 d.
Proof.
  intros Hne. induction d as [| [k' v'] d IH]; cbn.
  - destruct (Z.eqb_spec k k0); [congruence | reflexivity].
  - destruct (Z.eqb_spec k' k) as [-> | Hk]; cbn.
    + destruct (Z.eqb_spec k k0); [congruence | reflexivity].
    + destruct (Z.eqb_spec k' k0); [reflexivity | exact IH].
Qed.

Lemma dict_get_In (k : Z) (d : guild_dict) :
  dict_get k d <> None <-> In k (map fst d).
Proof.
  induction d as [| [k' v'] d IH]; cbn; [easy |].
  destruct (Z.eqb_spec k' k) as [-> | Hne].
  - split; [auto | discriminate].
  - rewrite IH. split; [auto | intros [? | ?]; [contradiction | assumption]].
Qed.

(** The keys after [d[k] = v]: unchanged for a known key, the new key last
    otherwise. *)
Lemma dict_set_keys (k : Z) (v : GuildSettings) (d : guild_dict) :
  map fst (dict_set k v d)
  = if contains k (map fst d) then map fst d else (map fst d ++ [k])%list.
Proof.
  induction d as [| [k' v'] d IH]; cbn; [reflexivity |].
  rewrite (Z.eqb_sym k k').
  destruct (Z.eqb_spec k' k) as [-> | Hne]; cbn; [reflexivity |].
  rewrite IH. fold (contains k (map fst d)).
  now destruct (contains k (map fst d)).
Qed.

(** Storing and looking up the configuration of a guild, all thirteen
    fields of it: a lookup after [set_guild_config] returns the
    configuration stored, the lookups of the other guilds are as before, a
    guild that was never stored gets the defaults [GuildConfig()], the
    guilds keep their order with a new guild last, and the global
    configuration is untouched.  When the ids of the guilds can be printed
    as the keys of the file, the data written hold the configuration stored
    under that guild, what was held under every other guild, and the
    global configuration. *)
Theorem set_then_get_guild_config (m : ConfigManager) (guild_id : Z)
    (config : GuildSettings) :
  let (m', file) := set_guild_config m guild_id config in
  get_guild_config m' guild_id = config
  /\ (forall other, other <> guild_id ->
        get_guild_config m' other = get_guild_config m other)
  /\ (forall other, ~ In other (map fst m.(guild_configs)) ->
        get_guild_config m other = default_settings)
  /\ map fst m'.(guild_configs)
     = (if contains guild_id (map fst m.(guild_configs))
        then map fst m.(guild_configs)
        else (map fst m.(guild_configs) ++ [guild_id])%list)
  /\ m'.(global_config) = m.(global_config)
  /\ (printable_ids m' = true ->
      fst file = m.(global_config)
      /\ dict_get guild_id (snd file) = Some config
      /\ forall other, other <> guild_id ->
           dict_get other (snd file) = dict_get other m.(guild_configs)).
Proof.
  unfold set_guild_config, get_guild_config, save_config.
  cbn [guild_configs global_config fst snd].
  split; [now rewrite dict_get_set_same |].
  split; [intros other Hne; now rewrite dict_get_set_other |].
  split; [| split; [apply dict_set_keys | split; [reflexivity |]]].
  - intros other Hout.
    destruct (dict_get other (guild_configs m)) as [c |] eqn:Hget;
      [| reflexivity].
    exfalso. apply Hout, dict_get_In. now rewrite Hget.
  - intros _. split; [reflexivity |].
    split; [apply dict_get_set_same |].
    intros other Hne. now apply dict_get_set_other.
Qed.

(** The theorem at the change the command [log_stream_mode] makes for a
    guild that has no entry yet: the defaults with [stream_mode] set. *)
Lemma set_then_get_guild_config_witness :
  let m := {| config_path := "config.json";
              global_config := {| developers := [];
                                  restart_mode := "execv";
                                  restart_service := None;
                                  global_stream_enabled := false;
                                  global_stream_channel := None |};
              guild_configs := [] |} in
  let config := {| log_channel := None;
                   stream_mode := "Live";
                   stream_throttle := 1000;
                   crit_success_channel := None;
                   crit_fail_channel := None;
                   rule_fields := default_config |} in
  get_guild_config m 42 = default_settings
  /\ get_guild_config (fst (set_guild_config m 42 config)) 42 = config
  /\ config <> default_settings.
Proof.
  cbv zeta. split; [reflexivity |].
  split; [| intros Heq; discriminate Heq].
  exact (proj1 (set_then_get_guild_config
                  {| config_path := "config.json";
                     global_config := {| developers := [];
                                         restart_mode := "execv";
                                         restart_service := None;
                                         global_stream_enabled := false;
                                         global_stream_channel := None |};
                     guild_configs := [] |}
                  42
                  {| log_channel := None;
                     stream_mode := "Live";
                     stream_throttle := 1000;
                     crit_success_channel := None;
                     crit_fail_channel := None;
                     rule_fields := default_config |})).
Defined.

(** [l.remove(x)] takes the first [x] out and leaves the rest in place. *)
Lemma list_remove_first (x : Z) (l : list Z) :
  In x l ->
  exists before after,
    l = (before ++ x :: after)%list /\ ~ In x before
    /\ list_remove x l = (before ++ after)%list.
Proof.
  induction l as [| y l IH]; cbn [list_remove]; [intros [] |].
  intros Hin. destruct (Z.eqb_spec y x) as [-> | Hne].
  - exists [], l. now repeat split.
  - destruct Hin as [? | Hin]; [contradiction |].
    destruct (IH Hin) as (before & after & -> & Hout & ->).
    exists (y :: before), after. repeat split.
    intros [? | ?]; [contradiction | now apply Hout].
Qed.

Lemma list_remove_count (x y : Z) (l : list Z) :
  In x l ->
  count_occ Z.eq_dec (list_remove x l) y
  = if Z.eq_dec x y then pred (count_occ Z.eq_dec l y)
    else count_occ Z.eq_dec l y.
Proof.
  induction l as [| z l IH]; cbn [list_remove]; [intros [] |].
  intros Hin. destruct (Z.eqb_spec z x) as [-> | Hne].
  - cbn [count_occ]. destruct (Z.eq_dec x y); reflexivity.
  - destruct Hin as [? | Hin]; [contradiction |].
    cbn [count_occ]. rewrite (IH Hin).
    destruct (Z.eq_dec z y) as [-> | ?], (Z.eq_dec x y) as [-> | ?];
      try reflexivity; contradiction.
Qed.

Lemma contains_count (x : Z) (l : list Z) :
  contains x l = (0 <? count_occ Z.eq_dec l x)%nat.
Proof.
  destruct (contains x l) eqn:Hc; symmetry.
  - apply Nat.ltb_lt, (count_occ_In Z.eq_dec), contains_In, Hc.
  - apply Nat.ltb_ge.
    assert (Hn : ~ In x l) by (rewrite <- contains_In; congruence).
    apply (count_occ_not_In Z.eq_dec) in Hn. lia.
Qed.

(** [add_developer] returns [True] exactly for a user who was no developer,
    appends that user and writes the file; afterwards the user is a
    developer, the standing of every other user is unchanged, and a list
    without repetition stays without repetition.  For a user who already
    was a developer it returns [False], changes nothing and writes
    nothing. *)
Theorem add_developer_effect (m : ConfigManager) (user_id : Z) :
  let '(added, m', file) := add_developer m user_id in
  added = negb (is_developer m user_id)
  /\ is_developer m' user_id = true
  /\ (forall other, other <> user_id ->
        is_developer m' other = is_developer m other)
  /\ (NoDup m.(global_config).(developers) ->
      NoDup m'.(global_config).(developers))
  /\ m'.(guild_configs) = m.(guild_configs)
  /\ (added = false -> m' = m /\ file = None)
  /\ (added = true ->
      m'.(global_config).(developers)
      = (m.(global_config).(developers) ++ [user_id])%list
      /\ file = Some (m'.(global_config), m'.(guild_configs))).
Proof.
  unfold add_developer, is_developer.
  destruct (contains user_id (developers (global_config m))) eqn:Hc.
  - repeat split; auto; discriminate.
  - cbn [with_developers global_config developers guild_configs].
    repeat split; try discriminate.
    + rewrite contains_app. cbn. now rewrite Z.eqb_refl, orb_true_r.
    + intros other Hne. rewrite contains_app. cbn.
      destruct (Z.eqb_spec other user_id); [contradiction |].
      now rewrite orb_false_r.
    + intros Hnd. apply NoDup_app; [exact Hnd | repeat constructor; easy |].
      intros x Hx [<- | []].
      apply contains_In in Hx. congruence.
Qed.

(** [remove_developer] returns [True] exactly for a developer, removes the
    first occurrence of that user, leaving every other entry of the list,
    later occurrences of the user included, where it was, and writes the
    file; the other users keep their standing.  The user is no developer
    afterwards when the list held that user once, as every list built by
    [add_developer] does; a user listed twice in the file that was loaded
    remains a developer. *)
Theorem remove_developer_effect (m : ConfigManager) (user_id : Z) :
  let '(removed, m', file) := remove_developer m user_id in
  removed = is_developer m user_id
  /\ (forall other, other <> user_id ->
        is_developer m' other = is_developer m other)
  /\ (removed = true ->
      (exists before after,
          m.(global_config).(developers)
          = (before ++ user_id :: after)%list
          /\ ~ In user_id before
          /\ m'.(global_config).(developers) = (before ++ after)%list)
      /\ count_occ Z.eq_dec m'.(global_config).(developers) user_id
         = pred (count_occ Z.eq_dec m.(global_config).(developers) user_id)
      /\ is_developer m' user_id
         = (1 <? count_occ Z.eq_dec m.(global_config).(developers) user_id)%nat
      /\ file = Some (m'.(global_config), m'.(guild_configs)))
  /\ (NoDup m.(global_config).(developers) ->
      NoDup m'.(global_config).(developers)
      /\ is_developer m' user_id = false)
  /\ m'.(guild_configs) = m.(guild_configs)
  /\ (removed = false -> m' = m /\ file = None).
Proof.
  unfold remove_developer, is_developer.
  destruct (contains user_id (developers (global_config m))) eqn:Hc;
    cbn [negb].
  - cbn [with_developers global_config developers guild_configs].
    pose proof (proj1 (contains_In _ _) Hc) as Hin.
    assert (Hcount : forall y,
      count_occ Z.eq_dec
        (list_remove user_id (developers (global_config m))) y
      = if Z.eq_dec user_id y
        then pred (count_occ Z.eq_dec (developers (global_config m)) y)
        else count_occ Z.eq_dec (developers (global_config m)) y)
      by (intros y; now apply list_remove_count).
    assert (Hself : contains user_id
                      (list_remove user_id (developers (global_config m)))
                    = (1 <? count_occ Z.eq_dec
                              (developers (global_config m)) user_id)%nat).
    { rewrite contains_count, Hcount.
      destruct (Z.eq_dec user_id user_id); [| contradiction].
      destruct (count_occ Z.eq_dec (developers (global_config m)) user_id)
        as [| [| n]]; reflexivity. }
    split; [reflexivity |]. split; [| split; [| split; [| split]]].
    + intros other Hne. rewrite !contains_count, Hcount.
      destruct (Z.eq_dec user_id other); [congruence | reflexivity].
    + intros _. split; [now apply list_remove_first |].
      split; [| split; [exact Hself | reflexivity]].
      rewrite Hcount. now destruct (Z.eq_dec user_id user_id).
    + intros Hnd.
      assert (Hle : forall y,
        (count_occ Z.eq_dec
           (list_remove user_id (developers (global_config m))) y <= 1)%nat).
      { intros y. rewrite Hcount.
        pose proof (proj1 (NoDup_count_occ Z.eq_dec _) Hnd y).
        destruct (Z.eq_dec user_id y); lia. }
      split; [now apply (NoDup_count_occ Z.eq_dec) |].
      rewrite Hself. apply Nat.ltb_ge.
      apply (proj1 (NoDup_count_occ Z.eq_dec _) Hnd).
    + reflexivity.
    + discriminate.
  - repeat split; auto; discriminate.
Qed.

(* ================================================================== *)
(** ** Conversions within the limit *)

(** A number written with [k] digits is below [10 ^ k]. *)
Lemma of_lu_lt (d : Decimal.uint) :
  (Unsigned.of_lu d < 10 ^ N.of_nat (Decimal.nb_digits d))%N.
Proof.
  induction d; cbn [Decimal.nb_digits Unsigned.of_lu];
    rewrite ?Nat2N.inj_succ, ?N.pow_succ_r'; [cbn |..]; lia.
Qed.

Lemma uint_of_string_length (s : string) (u : Decimal.uint) :
  NilEmpty.uint_of_string s = Some u -> Decimal.nb_digits u = String.length s.
Proof.
  revert u. induction s as [| c s IH]; cbn; intros u.
  - now intros [= <-].
  - destruct (NilEmpty.uint_of_string s) as [u' |]; [| discriminate].
    intros Hu. apply uint_of_char_spec in Hu.
    specialize (IH u' eq_refl).
    intuition subst; cbn; now f_equal.
Qed.

Lemma int_digits_lt (s : string) :
  int_digits s < 10 ^ Z.of_nat (String.length s).
Proof.
  unfold int_digits.
  destruct (NilEmpty.uint_of_string s) as [u |] eqn:Hu.
  - apply uint_of_string_length in Hu. rewrite <- Hu.
    unfold Z.of_uint. rewrite Unsigned.of_uint_alt.
    rewrite <- nb_digits_rev.
    pose proof (of_lu_lt (Decimal.rev u)) as Hlt.
    apply N2Z.inj_lt in Hlt. rewrite N2Z.inj_pow in Hlt.
    now rewrite nat_N_Z in Hlt.
  - apply Z.pow_pos_nonneg; lia.
Qed.

Lemma length_app (a b : string) :
  String.length (a ++ b) = (String.length a + String.length b)%nat.
Proof. induction a as [| c a IH]; cbn; [reflexivity | now rewrite IH]. Qed.

Lemma lstrip_length (s : string) :
  (String.length (lstrip s) <= String.length s)%nat.
Proof.
  induction s as [| c s IH]; cbn; [lia |].
  destruct (is_space c); cbn; lia.
Qed.

Lemma rstrip_length (s : string) :
  (String.length (rstrip s) <= String.length s)%nat.
Proof.
  induction s as [| c s IH]; cbn; [lia |].
  destruct (_ && _); cbn; lia.
Qed.

Lemma strip_length (s : string) :
  (String.length (strip s) <= String.length s)%nat.
Proof.
  unfold strip. pose proof (lstrip_length s).
  pose proof (rstrip_length (lstrip s)). lia.
Qed.

Lemma span_length (p : ascii -> bool) (s a b : string) :
  span p s = (a, b) ->
  String.length s = (String.length a + String.length b)%nat.
Proof.
  intros Hs. apply span_inv in Hs as (-> & _). apply length_app.
Qed.

(** The modifier group is a sign and its digits, all taken from the text;
    its value is, up to the sign, the number of the digits. *)
Lemma match_modifier_inv (s : string) (g3 : option string) (r : string) :
  match_modifier s = (g3, r) ->
  (String.length (modifier_digits g3) + String.length r
   <= String.length s)%nat
  /\ Z.abs (match g3 with Some t => int_signed t | None => 0 end)
     = int_digits (modifier_digits g3).
Proof.
  unfold match_modifier. destruct s as [| c s].
  - intros [= <- <-]. split; [cbn; lia | reflexivity].
  - destruct (Ascii.eqb c "+" || Ascii.eqb c "-")%bool eqn:Hc.
    + destruct (span is_digit s) as [ds r'] eqn:Hspan.
      apply span_length in Hspan.
      destruct (is_empty ds).
      * intros [= <- <-]. split; [cbn; lia | reflexivity].
      * intros [= <- <-]. split; [cbn; lia |].
        cbn [modifier_digits int_signed].
        pose proof (int_digits_nonneg ds).
        destruct (Ascii.eqb c "-"); [lia |].
        destruct (Ascii.eqb c "+"); [lia | discriminate].
    + intros [= <- <-]. split; [cbn; lia | reflexivity].
Qed.

(** The digits of the count, of the sides and of the modifier are distinct
    parts of the matched text, which holds the [d] besides. *)
Lemma match_dice_pattern_lengths (s : string) (m : dice_groups) :
  match_dice_pattern s = Some m ->
  (String.length m.(group1) + String.length m.(group2)
   + String.length (modifier_digits m.(group3)) + 1 <= String.length s)%nat
  /\ Z.abs (match m.(group3) with Some t => int_signed t | None => 0 end)
     = int_digits (modifier_digits m.(group3)).
Proof.
  unfold match_dice_pattern.
  destruct (span is_digit s) as [g1 r1] eqn:H1. apply span_length in H1.
  destruct r1 as [| c r2]; [discriminate |].
  destruct (Ascii.eqb c "d"); [| discriminate].
  destruct (span is_digit r2) as [g2 r3] eqn:H2. apply span_length in H2.
  destruct (is_empty g2); [discriminate |].
  destruct (match_modifier r3) as [g3 r4] eqn:H3.
  apply match_modifier_inv in H3 as [H3 Habs].
  cbn [String.length] in H1.
  destruct (match_comparison r4) as [[op v] |].
  - intros [= <-]. cbn. split; [lia | exact Habs].
  - destruct (at_dollar r4); [| discriminate].
    intros [= <-]. cbn. split; [lia | exact Habs].
Qed.

Lemma printable_below (n : Z) (k : nat) :
  Z.abs n < 10 ^ Z.of_nat k -> Z.of_nat k <= int_max_str_digits ->
  printable n = true.
Proof.
  intros Hn Hk. unfold printable. apply Z.ltb_lt.
  eapply Z.lt_le_trans; [exact Hn |]. apply Z.pow_le_mono_r; lia.
Qed.

(** A specification parsed from a text: the number of its dice, the sides
    and the modifier are below the powers of ten of three lengths [a], [b]
    and [c] that leave a character of the text. *)
Lemma parse_dice_expr_digits (expr : string) (rules : GuildConfig)
    (d : DiceRoll) :
  parse_dice_expr expr rules = Ok d ->
  exists a b c : nat,
    (a + b + c + 1 <= String.length (strip expr))%nat
    /\ 1 <= d.(count) <= 10 ^ Z.of_nat a
    /\ 2 <= d.(sides) < 10 ^ Z.of_nat b
    /\ Z.abs d.(modifier) < 10 ^ Z.of_nat c.
Proof.
  intros Hp. pose proof (parse_dice_expr_valid _ _ _ Hp) as [Hc Hs].
  revert Hp. unfold parse_dice_expr.
  destruct (match_dice_pattern (strip expr)) as [m |] eqn:Hm; [| discriminate].
  apply match_dice_pattern_lengths in Hm as [Hm Habs].
  destruct (_ =? 0); [discriminate |].
  destruct (_ <? _); [discriminate |].
  destruct (_ <? 2); [discriminate |].
  destruct (_ <? _); [discriminate |].
  intros [= <-]. cbn [count sides modifier] in *.
  exists (String.length (group1 m)), (String.length (group2 m)),
    (String.length (modifier_digits (group3 m))).
  split; [exact Hm |]. split; [| split].
  - split; [lia |]. destruct (is_empty (group1 m)) eqn:He.
    + destruct (group1 m); [cbn; lia | discriminate].
    + pose proof (int_digits_lt (group1 m)). lia.
  - split; [lia | apply int_digits_lt].
  - rewrite Habs. apply int_digits_lt.
Qed.

Lemma pow10_sum (a b c l : nat) :
  (a + b + c + 1 <= l)%nat ->
  10 ^ Z.of_nat (a + b) + 10 ^ Z.of_nat c <= 10 ^ Z.of_nat l.
Proof.
  intros Hl. destruct l as [| l]; [lia |].
  assert (H1 : 10 ^ Z.of_nat (a + b) <= 10 ^ Z.of_nat l)
    by (apply Z.pow_le_mono_r; lia).
  assert (H2 : 10 ^ Z.of_nat c <= 10 ^ Z.of_nat l)
    by (apply Z.pow_le_mono_r; lia).
  rewrite Nat2Z.inj_succ, Z.pow_succ_r by lia.
  assert (0 < 10 ^ Z.of_nat l) by (apply Z.pow_pos_nonneg; lia).
  lia.
Qed.

Section OutcomeDigits.
Context {G : Type} `{RandomSource G}.

(** The outcome of a specification parsed from a text within the limit
    prints within the limit. *)
Lemma parsed_roll_renders (expr : string) (rules : GuildConfig)
    (d : DiceRoll) (g : G) (r : RollResult) (g' : G) :
  convertible (strip expr) = true ->
  parse_dice_expr expr rules = Ok d ->
  roll_dice d g = (Ok r, g') ->
  renders r = true.
Proof.
  intros Hconv Hp Hrun.
  apply Z.leb_le in Hconv.
  destruct (parse_dice_expr_digits _ _ _ Hp)
    as (a & b & c & Hlen & Hcount & Hsides & Hmod).
  destruct (roll_dice_outcome d g r g' ltac:(lia) Hrun)
    as (Hrolls & Hrange & Htotal & _ & Hrmod).
  pose proof (sum_bounds 1 d.(sides) r.(rolls) Hrange) as Hsum.
  rewrite Hrolls, Z2Nat.id in Hsum by lia.
  pose proof (pow10_sum a b c _ Hlen) as Hpow.
  rewrite Nat2Z.inj_add, Z.pow_add_r in Hpow by lia.
  assert (Ha : 0 < 10 ^ Z.of_nat a) by (apply Z.pow_pos_nonneg; lia).
  assert (Hb : 0 < 10 ^ Z.of_nat b) by (apply Z.pow_pos_nonneg; lia).
  assert (Hc : 0 < 10 ^ Z.of_nat c) by (apply Z.pow_pos_nonneg; lia).
  set (L := String.length (strip expr)) in *.
  assert (Hbig : forall x, Z.abs x < 10 ^ Z.of_nat L -> printable x = true)
    by (intros x Hx; now apply (printable_below x L)).
  unfold renders. rewrite !andb_true_iff. repeat split.
  - apply forallb_forall. intros v Hv.
    rewrite Forall_forall in Hrange. specialize (Hrange v Hv).
    apply Hbig. nia.
  - apply Hbig. rewrite Hrmod. nia.
  - apply Hbig. rewrite Htotal. nia.
Qed.

Lemma convertible_shorter (s t : string) :
  (String.length s <= String.length t)%nat ->
  convertible t = true -> convertible s = true.
Proof. unfold convertible. rewrite !Z.leb_le. lia. Qed.

(** So do the outcomes of [roll_multiple_dice]. *)
Lemma roll_multiple_dice_renders (expr : string) (max_rolls : Z)
    (rules : GuildConfig) (g : G) (rs : list RollResult) (g' : G) :
  convertible (strip expr) = true ->
  roll_multiple_dice expr max_rolls rules g = (Ok rs, g') ->
  Forall (fun r => renders r = true) rs.
Proof.
  intros Hconv. unfold roll_multiple_dice.
  destruct (match_multi_pattern (strip expr)) as [[g1 g2] |] eqn:Hm.
  - destruct (int_digits g1 =? 0); [discriminate |].
    destruct (max_rolls <? int_digits g1); [discriminate |].
    unfold bind at 1, lift.
    destruct (parse_dice_expr (strip g2) rules) as [d | e] eqn:Hp;
      [| discriminate].
    assert (Hnested : convertible (strip (strip g2)) = true).
    { apply (convertible_shorter _ (strip expr)); [| exact Hconv].
      destruct (match_multi_pattern_inv _ _ _ Hm)
        as (plus & blanks & tail & -> & _).
      pose proof (strip_length (strip g2)). pose proof (strip_length g2).
      rewrite !length_app. lia. }
    intros Hrun. eapply repeatM_Forall; [| exact Hrun].
    intros g0 r g1'. now apply (parsed_roll_renders (strip g2) rules d).
  - unfold bind at 1, lift.
    destruct (parse_dice_expr expr rules) as [d | e] eqn:Hp; [| discriminate].
    unfold bind, ret.
    destruct (roll_dice d g) as [[r | e] g1] eqn:Hr; [| discriminate].
    intros [= <- _]. constructor; [| constructor].
    now apply (parsed_roll_renders expr rules d g r g1).
Qed.
End OutcomeDigits.

Section ParsedWithinLimit.
Context {G : Type} `{RandomSource G}.

(** A specification parsed from a text of at most 4300 characters has a
    count, sides and a modifier of at most 4300 digits, and every die, the
    modifier and the total of an outcome of it have at most 4300 digits:
    neither [format_dice_expr] nor the renderings of the outcome reach the
    limit of [str]. *)
Theorem parsed_roll_within_limit (expr : string) (rules : GuildConfig)
    (d : DiceRoll) (g : G) (r : RollResult) (g' : G) :
  convertible (strip expr) = true ->
  parse_dice_expr expr rules = Ok d ->
  roll_dice d g = (Ok r, g') ->
  printable d.(count) = true /\ printable d.(sides) = true
  /\ printable d.(modifier) = true /\ renders r = true.
Proof.
  intros Hconv Hp Hrun.
  split; [| split; [| split]];
    [.. | now apply (parsed_roll_renders expr rules d g r g')].
  all: destruct (parse_dice_expr_digits _ _ _ Hp)
         as (a & b & c & Hlen & Hcount & Hsides & Hmod).
  all: apply Z.leb_le in Hconv.
  - apply (printable_below _ (S a)); [| lia].
    rewrite Nat2Z.inj_succ, Z.pow_succ_r by lia.
    assert (0 < 10 ^ Z.of_nat a) by (apply Z.pow_pos_nonneg; lia). lia.
  - apply (printable_below _ b); lia.
  - apply (printable_below _ c); [exact Hmod | lia].
Qed.

End ParsedWithinLimit.

(** The theorem at ["2d20+5"] with the dice 20 and 1. *)
Lemma parsed_roll_within_limit_witness :
  convertible (strip "2d20+5") = true
  /\ exists d r g',
       parse_dice_expr "2d20+5" default_config = Ok d
       /\ roll_dice d ([20; 1] : tape) = (Ok r, g')
       /\ printable d.(count) = true /\ printable d.(sides) = true
       /\ printable d.(modifier) = true /\ renders r = true.
Proof.
  assert (Hc : convertible (strip "2d20+5") = true)
    by (vm_compute; reflexivity).
  split; [exact Hc |].
  destruct (parse_dice_expr "2d20+5" default_config) as [d | e] eqn:Hp;
    [| vm_compute in Hp; discriminate Hp].
  destruct (roll_dice d ([20; 1] : tape)) as [[r | e] g'] eqn:Hr.
  - exists d, r, g'. split; [reflexivity |]. split; [exact Hr |].
    exact (parsed_roll_within_limit "2d20+5" default_config d
             ([20; 1] : tape) r g' Hc Hp Hr).
  - vm_compute in Hp. injection Hp as <-.
    vm_compute in Hr. discriminate Hr.
Defined.

(* ================================================================== *)
(** ** The lines of a rendered roll *)

Lemma count_nl_app (a b : string) :
  count_nl (a ++ b) = (count_nl a + count_nl b)%nat.
Proof. induction a as [| c a IH]; cbn; [reflexivity | rewrite IH; lia]. Qed.

Lemma count_nl_dot (s : string) :
  all_chars is_dot s = true -> count_nl s = O.
Proof.
  induction s as [| c s IH]; cbn [count_nl all_chars]; [reflexivity |].
  unfold is_dot at 1. rewrite andb_true_iff, negb_true_iff.
  intros [-> Hs]. now rewrite (IH Hs).
Qed.

Lemma is_digit_dot (c : ascii) : is_digit c = true -> is_dot c = true.
Proof.
  intros Hc. unfold is_dot.
  destruct (Ascii.eqb_spec c newline) as [-> | _]; [discriminate | easy].
Qed.

Lemma str_one_line (n : Z) : all_chars is_dot (str n) = true.
Proof.
  assert (Hd : forall p, all_chars is_dot (digits_of p) = true).
  { intros p. apply (all_chars_weaken is_digit); [apply is_digit_dot |].
    apply digits_of_digits. }
  destruct n as [| p | p]; [reflexivity | |].
  - rewrite str_pos. apply Hd.
  - rewrite str_neg. cbn. apply Hd.
Qed.

Lemma join_one_line (sep : string) (l : list string) :
  all_chars is_dot sep = true ->
  Forall (fun x => all_chars is_dot x = true) l ->
  all_chars is_dot (join sep l) = true.
Proof.
  intros Hsep Hl. induction Hl as [| x l Hx Hl IH]; [reflexivity |].
  cbn [join]. destruct l as [| y l]; [exact Hx |].
  now rewrite !all_chars_app, Hx, Hsep, IH.
Qed.

Lemma total_with_mod_one_line (r : RollResult) :
  all_chars is_dot (total_with_mod r) = true.
Proof.
  assert (Hj : all_chars is_dot (join " + " (map str r.(rolls))) = true).
  { apply join_one_line; [reflexivity |].
    apply Forall_map, Forall_forall. intros x _. apply str_one_line. }
  unfold total_with_mod. destruct (negb _);
    repeat (rewrite all_chars_app || cbn [all_chars]);
    now rewrite Hj, !str_one_line.
Qed.

Lemma format_dice_expr_one_line (d : DiceRoll) :
  all_chars is_dot (format_dice_expr d) = true.
Proof.
  unfold format_dice_expr.
  destruct (_ =? 0); [| destruct (0 <=? _)];
    repeat (rewrite all_chars_app || cbn [all_chars]);
    now rewrite !str_one_line.
Qed.

Lemma enumerate_from_length {A : Type} (idx : list Z) (l : list A) :
  List.length idx = List.length l ->
  List.length (combine idx l) = List.length l.
Proof. intros Hlen. rewrite length_combine. lia. Qed.

(** The loop of [format_multiple_roll_results] adds one line feed for each
    item whose expression holds none. *)
Lemma format_multiple_fold_lines (items : list (Z * RollResult))
    (output : string) :
  Forall (fun item => all_chars is_dot (snd item).(dice_expr) = true) items ->
  count_nl
    (fold_left
       (fun output '(i, result) =>
          output ++ str (i + 1) ++ ". " ++ result.(dice_expr) ++ " = "
            ++ total_with_mod result ++ nl)
       items output)
  = (count_nl output + List.length items)%nat.
Proof.
  intros Hitems. revert output.
  induction Hitems as [| [i r] items Hr _ IH]; intros output; cbn [fold_left].
  - cbn. lia.
  - rewrite IH. cbn [List.length snd] in *.
    rewrite !count_nl_app.
    rewrite (count_nl_dot _ (str_one_line (i + 1))),
      (count_nl_dot _ Hr), (count_nl_dot _ (total_with_mod_one_line r)).
    cbn. lia.
Qed.

Section RenderedRolls.
Context {G : Type} `{RandomSource G}.

(** The outcomes of [roll_multiple_dice] on a text of at most 4300
    characters print within the limit of [str], their dice, modifier and
    total having at most 4300 digits, so that the renderings do not raise,
    and they render line by line: the text of [format_roll_result] for any
    of them holds no line feed, and the text of
    [format_multiple_roll_results] for the list holds exactly one line feed
    for its heading and one for each outcome. *)
Theorem rendered_rolls_lines (expr : string) (max_rolls : Z)
    (rules : GuildConfig) (g : G) (rs : list RollResult) (g' : G) :
  convertible (strip expr) = true ->
  roll_multiple_dice expr max_rolls rules g = (Ok rs, g') ->
  Forall (fun r => renders r = true) rs
  /\ Forall (fun r => count_nl (format_roll_result r) = O) rs
  /\ count_nl (format_multiple_roll_results rs) = S (List.length rs).
Proof.
  intros Hconv Hrun.
  split; [now apply (roll_multiple_dice_renders expr max_rolls rules g rs g') |].
  assert (Hexpr : Forall (fun r => all_chars is_dot r.(dice_expr) = true) rs).
  { assert (Hone : forall d g0 r g1,
              roll_dice d g0 = (Ok r, g1) ->
              all_chars is_dot r.(dice_expr) = true).
    { intros d g0 r g1 Hr. unfold roll_dice, bind, ret in Hr.
      destruct (repeatM _ _ g0) as [[xs | e] g2]; [| discriminate].
      injection Hr as <- _. apply format_dice_expr_one_line. }
    unfold roll_multiple_dice in Hrun.
    destruct (match_multi_pattern (strip expr)) as [[g1 g2] |].
    - destruct (int_digits g1 =? 0); [discriminate |].
      destruct (max_rolls <? int_digits g1); [discriminate |].
      unfold bind at 1, lift in Hrun.
      destruct (parse_dice_expr (strip g2) rules) as [d | e];
        [| discriminate].
      eapply repeatM_Forall; [| exact Hrun]. intros g0 r g1'. apply Hone.
    - unfold bind at 1, lift in Hrun.
      destruct (parse_dice_expr expr rules) as [d | e]; [| discriminate].
      unfold bind, ret in Hrun.
      destruct (roll_dice d g) as [[r | e] g1] eqn:Hr; [| discriminate].
      injection Hrun as <- _. constructor; [| constructor].
      eapply Hone, Hr. }
  split.
  - eapply Forall_impl; [| exact Hexpr].
    intros r Hr. apply count_nl_dot. unfold format_roll_result.
    repeat (rewrite all_chars_app || cbn [all_chars]).
    rewrite Hr, total_with_mod_one_line.
    destruct r.(is_critical_success), r.(is_critical_fail),
      r.(comparison_result) as [[|] |]; reflexivity.
  - unfold format_multiple_roll_results.
    rewrite format_multiple_fold_lines.
    + unfold enumerate. rewrite enumerate_from_length.
      * rewrite count_nl_app. cbn. lia.
      * now rewrite length_map, length_seq.
    + apply (Forall_enumerate
               (fun item => all_chars is_dot (snd item).(dice_expr) = true)).
      eapply Forall_impl; [| exact Hexpr]. intros r Hr i. exact Hr.
Qed.

End RenderedRolls.

(** The theorem at ["3 2d20-1>5"] under a bound of 10. *)
Lemma rendered_rolls_lines_witness :
  convertible (strip "3 2d20-1>5") = true
  /\ exists rs g',
       roll_multiple_dice "3 2d20-1>5" 10 default_config
         ([20; 1; 3; 4; 5; 6] : tape) = (Ok rs, g')
       /\ Forall (fun r => renders r = true) rs
       /\ Forall (fun r => count_nl (format_roll_result r) = O) rs
       /\ count_nl (format_multiple_roll_results rs) = S (List.length rs).
Proof.
  assert (Hc : convertible (strip "3 2d20-1>5") = true)
    by (vm_compute; reflexivity).
  split; [exact Hc |].
  destruct (roll_multiple_dice "3 2d20-1>5" 10 default_config
              ([20; 1; 3; 4; 5; 6] : tape)) as [[rs | e] g'] eqn:Hrun.
  - exists rs, g'. split; [reflexivity |].
    exact (rendered_rolls_lines "3 2d20-1>5" 10 default_config
             ([20; 1; 3; 4; 5; 6] : tape) rs g' Hc Hrun).
  - vm_compute in Hrun. discriminate Hrun.
Defined.

(** The multi-roll rendering shows the expression, the dice, the modifier
    and the total of each outcome and nothing else: two lists that agree on
    these render to the same text, whatever their critical flags and
    comparison results, which [format_roll_result] does show. *)
Theorem format_multiple_roll_results_hides_flags
    (rs rs' : list RollResult) :
  Forall2 (fun r r' =>
             r.(dice_expr) = r'.(dice_expr) /\ r.(rolls) = r'.(rolls)
             /\ r.(result_modifier) = r'.(result_modifier)
             /\ r.(total) = r'.(total)) rs rs' ->
  format_multiple_roll_results rs = format_multiple_roll_results rs'.
Proof.
  intros Hsame. unfold format_multiple_roll_results, enumerate.
  rewrite (Forall2_length Hsame).
  generalize (map Z.of_nat (seq 0 (List.length rs'))).
  generalize ("🎲 連續擲骰結果:" ++ nl).
  induction Hsame as [| r r' rs rs' (He & Hr & Hm & Ht) _ IH];
    intros output idx; [reflexivity |].
  destruct idx as [| i idx]; [reflexivity |].
  assert (Htw : total_with_mod r = total_with_mod r')
    by (unfold total_with_mod; now rewrite Hr, Hm, Ht).
  cbn [combine fold_left]. rewrite He, Htw. apply IH.
Qed.

(** The theorem at a roll of 20 on [1d20>=15] with and without its flag and
    its comparison result. *)
Lemma format_multiple_roll_results_hides_flags_witness :
  let r := {| dice_expr := "1d20"; rolls := [20]; result_modifier := 0;
              total := 20; is_critical_success := true;
              is_critical_fail := false; comparison_result := Some true |} in
  let r' := {| dice_expr := "1d20"; rolls := [20]; result_modifier := 0;
               total := 20; is_critical_success := false;
               is_critical_fail := false; comparison_result := None |} in
  format_multiple_roll_results [r] = format_multiple_roll_results [r']
  /\ format_roll_result r <> format_roll_result r'.
Proof.
  cbv zeta. split; [| vm_compute; discriminate].
  apply (format_multiple_roll_results_hides_flags
           [{| dice_expr := "1d20"; rolls := [20]; result_modifier := 0;
               total := 20; is_critical_success := true;
               is_critical_fail := false; comparison_result := Some true |}]
           [{| dice_expr := "1d20"; rolls := [20]; result_modifier := 0;
               total := 20; is_critical_success := false;
               is_critical_fail := false; comparison_result := None |}]).
  repeat constructor.
Defined.

(* ================================================================== *)
(** ** Failures of a roll *)

Lemma parse_dice_expr_raises (expr : string) (rules : GuildConfig)
    (max_rolls : Z) (e : exn) :
  parse_dice_expr expr rules = Raise e ->
  exists msg, e = ValueError msg /\ is_roll_error rules max_rolls msg.
Proof.
  unfold parse_dice_expr, is_roll_error.
  destruct (match_dice_pattern (strip expr)) as [m |];
    [| intros [= <-]; eauto 12].
  cbv zeta.
  destruct (_ =? 0); [intros [= <-]; eauto 12 |].
  destruct (_ <? _); [intros [= <-]; eauto 12 |].
  destruct (_ <? 2); [intros [= <-]; eauto 12 |].
  destruct (_ <? _); [intros [= <-]; eauto 12 | discriminate].
Qed.

Section Failures.
Context {G : Type} `{RandomSource G}.

(** A call of [roll_multiple_dice] whose conversions are within the limit
    of the interpreter (a text of at most 4300 characters, a bound and caps
    of at most 4300 digits) and that raises has drawn nothing from the
    random source, and what it raises is a [ValueError] bearing one of the
    seven messages of the module. *)
Theorem roll_multiple_dice_failure (expr : string) (max_rolls : Z)
    (rules : GuildConfig) (g : G) (e : exn) (g' : G) :
  within_limit expr max_rolls rules = true ->
  roll_multiple_dice expr max_rolls rules g = (Raise e, g') ->
  g' = g
  /\ exists msg, e = ValueError msg /\ is_roll_error rules max_rolls msg.
Proof.
  intros _.
  unfold roll_multiple_dice.
  destruct (match_multi_pattern (strip expr)) as [[g1 g2] |].
  - destruct (int_digits g1 =? 0).
    { intros [= <- <-]. split; [reflexivity |].
      eexists. split; [reflexivity |]. unfold is_roll_error. auto 12. }
    destruct (max_rolls <? int_digits g1).
    { intros [= <- <-]. split; [reflexivity |].
      eexists. split; [reflexivity |]. unfold is_roll_error. auto 12. }
    unfold bind at 1, lift.
    destruct (parse_dice_expr (strip g2) rules) as [d | e0] eqn:Hp.
    + destruct (parse_dice_expr_valid _ _ _ Hp) as [_ Hs].
      destruct (repeatM_succeeds _ (roll_dice_succeeds d ltac:(lia))
                  (Z.to_nat (int_digits g1)) g) as (rs & -> & _).
      discriminate.
    + intros [= <- <-]. split; [reflexivity |].
      now apply (parse_dice_expr_raises (strip g2)).
  - unfold bind at 1, lift.
    destruct (parse_dice_expr expr rules) as [d | e0] eqn:Hp.
    + destruct (parse_dice_expr_valid _ _ _ Hp) as [_ Hs].
      destruct (roll_dice_succeeds d ltac:(lia) g) as (r & g1 & Hr).
      unfold bind, ret. rewrite Hr. discriminate.
    + intros [= <- <-]. split; [reflexivity |].
      now apply (parse_dice_expr_raises expr).
Qed.

End Failures.

(** The theorem at ["0 d6"] under a bound of 10. *)
Lemma roll_multiple_dice_failure_witness :
  within_limit "0 d6" 10 default_config = true
  /\ roll_multiple_dice "0 d6" 10 default_config ([3] : tape)
     = (Raise (ValueError "擲骰次數必須至少為1"), [3])
  /\ ([3] : tape) = [3]
  /\ exists msg,
       ValueError "擲骰次數必須至少為1" = ValueError msg
       /\ is_roll_error default_config 10 msg.
Proof.
  assert (Hl : within_limit "0 d6" 10 default_config = true)
    by (vm_compute; reflexivity).
  split; [exact Hl |]. split; [reflexivity |].
  exact (roll_multiple_dice_failure "0 d6" 10 default_config ([3] : tape)
           (ValueError "擲骰次數必須至少為1") [3] Hl eq_refl).
Defined.

(* ================================================================== *)
(** ** The order of the levels under the default rules *)

(** Under the default configuration the level never improves with a
    higher roll and never worsens with a higher skill: for rolls and
    skills of [[1, 100]], a roll at least as low against a skill at least as
    high gets a level at least as good (a number at most as large). *)
Theorem determine_success_level_monotone
    (roll roll' skill_value skill_value' : Z) :
  1 <= roll <= roll' -> roll' <= 100 ->
  1 <= skill_value' <= skill_value -> skill_value <= 100 ->
  exists level level',
    determine_success_level roll skill_value default_config = Ok level
    /\ determine_success_level roll' skill_value' default_config = Ok level'
    /\ level <= level'.
Proof.
  intros Hroll Hroll' Hskill Hskill'.
  rewrite (determine_success_level_classify roll skill_value default_config)
    by (cbn; lia).
  rewrite (determine_success_level_classify roll' skill_value' default_config)
    by (cbn; lia).
  do 2 eexists. split; [reflexivity |]. split; [reflexivity |].
  unfold ClassifyCoc, critical_failure_test.
  cbn [coc_critical_success coc_critical_fail coc_skill_divisor_hard
       coc_skill_divisor_extreme default_config].
  pose proof (Z.div_le_mono skill_value' skill_value 5 ltac:(lia) ltac:(lia)).
  pose proof (Z.div_le_mono skill_value' skill_value 2 ltac:(lia) ltac:(lia)).
  pose proof (Z.div_le_mono skill_value 100 5 ltac:(lia) ltac:(lia)) as H5.
  pose proof (Z.div_le_mono skill_value 100 2 ltac:(lia) ltac:(lia)) as H2.
  change (100 / 5) with 20 in H5. change (100 / 2) with 50 in H2.
  repeat match goal with
         | |- context [?a =? ?b] => destruct (Z.eqb_spec a b)
         | |- context [?a <? ?b] => destruct (Z.ltb_spec a b)
         | |- context [?a <=? ?b] => destruct (Z.leb_spec a b)
         end; cbn [orb level_of_tier]; try lia.
Qed.

(** The theorem at the rolls 20 and 60 against the skills 70 and 40. *)
Lemma determine_success_level_monotone_witness :
  exists level level',
    determine_success_level 20 70 default_config = Ok level
    /\ determine_success_level 60 40 default_config = Ok level'
    /\ level <= level'.
Proof.
  apply (determine_success_level_monotone 20 60 70 40); lia.
Defined.
